(** * EcoConsumptionTracker: a shallow embedding of [main.py]

    The tracker keeps one dictionary [self.data] (category name to list of
    records), reads it from and writes it to [consumption_data.json] with
    Python's [json] module, appends dated records, and prints a report.

    Layout of this file:
    - text and numbers as the program sees them;
    - JSON documents, Python's dictionary operations on them;
    - the [json] encoder ([indent=4]) and decoder the program calls;
    - the tracker state and its methods, one definition per method;
    - the list objects behind the dictionary;
    - the data model of the specification;
    - the properties of the methods, then the same on concrete runs.

    The menu loop [main] only reads the keyboard and calls the methods; it
    is not part of this development. *)

From Stdlib Require Import List NArith ZArith String Ascii Bool Lia.
Import ListNotations.

Local Open Scope N_scope.

(** ** Text

    A Python [str] is a sequence of code points. *)

Definition text : Type := list N.

Definition str (s : string) : text := map N_of_ascii (list_ascii_of_string s).

Fixpoint text_eqb (a b : text) : bool :=
  match a, b with
  | [], [] => true
  | x :: a', y :: b' => (x =? y) && text_eqb a' b'
  | _, _ => false
  end.

(** [s.startswith(p)], giving what follows the prefix. *)
Fixpoint strip_prefix (p s : text) : option text :=
  match p, s with
  | [], _ => Some s
  | x :: p', y :: s' => if x =? y then strip_prefix p' s' else None
  | _ :: _, [] => None
  end.

(** [str.capitalize] on ASCII letters: the first letter in upper case, the
    others in lower case. *)
Definition ascii_upper (c : N) : N :=
  if (97 <=? c) && (c <=? 122) then c - 32 else c.

Definition ascii_lower (c : N) : N :=
  if (65 <=? c) && (c <=? 90) then c + 32 else c.

Definition ascii_capitalize (s : text) : text :=
  match s with
  | [] => []
  | c :: r => ascii_upper c :: map ascii_lower r
  end.

(** ** Numbers

    An amount is whatever number the caller passes: [main] passes the
    [float] it parsed, a stored file may hold [int]s as well.  The program
    only adds amounts (starting from the [int] 0 of [sum]), compares a total
    with the [int] 100, formats them and hands them to [json].  These
    operations of the Python runtime are the interface below. *)

Inductive float_class : Type := Finite | IsNaN | IsPosInf | IsNegInf.

Class PyNumber : Type := {
  num : Type;
  (** an [int] literal or a [bool] used as a number *)
  num_of_int : Z -> num;
  (** [a + b] *)
  num_add : num -> num -> num;
  (** [a > b] and [a <= b] *)
  num_gt : num -> num -> bool;
  num_le : num -> num -> bool;
  (** [str(a)], which is [repr(a)] for [int] and [float] *)
  num_str : num -> text;
  (** finite, or one of the three special [float]s *)
  num_class : num -> float_class;
  num_nan : num;
  num_inf : num;
  num_neg_inf : num;
  (** [NUMBER_RE.match] at the head of the text followed by [int()] or
      [float()] on the matched token: the number and what follows it *)
  scan_number : text -> option (num * text)
}.

(** An instance: Python's [int], printed in decimal, together with the
    three special [float]s that [json] writes as [NaN], [Infinity] and
    [-Infinity].  Finite [float]s with a fraction are not in it. *)

Inductive intnum : Type := Int (z : Z) | Nan | Inf | NegInf.

Definition intnum_add (a b : intnum) : intnum :=
  match a, b with
  | Int x, Int y => Int (x + y)
  | Nan, _ | _, Nan => Nan
  | Inf, NegInf | NegInf, Inf => Nan
  | Inf, _ | _, Inf => Inf
  | NegInf, _ | _, NegInf => NegInf
  end.

Definition intnum_gt (a b : intnum) : bool :=
  match a, b with
  | Int x, Int y => (x >? y)%Z
  | Nan, _ | _, Nan => false
  | Inf, Inf => false
  | Inf, _ => true
  | _, Inf => false
  | NegInf, _ => false
  | Int _, NegInf => true
  end.

Definition intnum_le (a b : intnum) : bool :=
  match a, b with
  | Int x, Int y => (x <=? y)%Z
  | Nan, _ | _, Nan => false
  | _, Inf => true
  | Inf, _ => false
  | NegInf, _ => true
  | Int _, NegInf => false
  end.

Fixpoint digits_of (fuel : nat) (n : N) (acc : text) : text :=
  match fuel with
  | O => acc
  | S f => if n <? 10 then (48 + n) :: acc
           else digits_of f (n / 10) ((48 + n mod 10) :: acc)
  end.

Definition decimal_of_N (n : N) : text := digits_of (S (N.size_nat n)) n [].

Definition int_str (z : Z) : text :=
  match z with
  | Zneg p => 45 :: decimal_of_N (Npos p)
  | _ => decimal_of_N (Z.to_N z)
  end.

Definition intnum_str (a : intnum) : text :=
  match a with
  | Int z => int_str z
  | Nan => str "nan"
  | Inf => str "inf"
  | NegInf => str "-inf"
  end.

Definition intnum_class (a : intnum) : float_class :=
  match a with
  | Int _ => Finite
  | Nan => IsNaN
  | Inf => IsPosInf
  | NegInf => IsNegInf
  end.

Definition is_digit (c : N) : bool := (48 <=? c) && (c <=? 57).

Fixpoint read_digits (s : text) (acc : N) : N * text :=
  match s with
  | c :: r => if is_digit c then read_digits r (10 * acc + (c - 48)) else (acc, s)
  | [] => (acc, [])
  end.

(** Does a fraction or an exponent follow?  Then the token is a [float]
    with a fraction, which this instance does not have. *)
Definition float_follows (s : text) : bool :=
  match s with
  | c :: _ => (c =? 46) || (c =? 101) || (c =? 69)
  | [] => false
  end.

(** The integer part of [NUMBER_RE]: an optional minus sign, then either a
    single 0 or a nonzero digit followed by digits. *)
Definition int_scan (s : text) : option (intnum * text) :=
  let '(neg, body) := match s with
                      | c :: r => if c =? 45 then (true, r) else (false, s)
                      | [] => (false, [])
                      end in
  match body with
  | d :: r =>
      if d =? 48 then
        if float_follows r then None else Some (Int 0, r)
      else if is_digit d then
        let '(n, rest) := read_digits body 0 in
        if float_follows rest then None
        else Some (Int (if neg then Z.opp (Z.of_N n) else Z.of_N n), rest)
      else None
  | [] => None
  end.

#[export] Instance IntNumber : PyNumber := {|
  num := intnum;
  num_of_int := Int;
  num_add := intnum_add;
  num_gt := intnum_gt;
  num_le := intnum_le;
  num_str := intnum_str;
  num_class := intnum_class;
  num_nan := Nan;
  num_inf := Inf;
  num_neg_inf := NegInf;
  scan_number := int_scan
|}.


(** ** Dictionaries

    A Python [dict] with [str] keys is an association list in insertion
    order.  Its keys are distinct in every dictionary the program builds or
    loads, because entries only ever come from [dict_set]. *)

Section Dict.

Context {V : Type}.

(** [d.get(k)]: [None] when the key is absent. *)
Fixpoint dict_get (k : text) (d : list (text * V)) : option V :=
  match d with
  | [] => None
  | (k', v) :: d' => if text_eqb k k' then Some v else dict_get k d'
  end.

(** [d[k] = v]: an existing key keeps its place, a new key goes last. *)
Fixpoint dict_set (k : text) (v : V) (d : list (text * V)) : list (text * V) :=
  match d with
  | [] => [(k, v)]
  | (k', v') :: d' =>
      if text_eqb k k' then (k', v) :: d' else (k', v') :: dict_set k v d'
  end.

(** [d.keys()] *)
Definition keys (d : list (text * V)) : list text := map fst d.

End Dict.

(** ** JSON documents

    What [json.load] returns and [json.dump] accepts. *)

Section Tracker.

Context {PN : PyNumber}.

(** [str.capitalize], from the Python runtime. *)
Variable capitalize : text -> text.

#[warnings="-register-all"]
Inductive json : Type :=
  | JNull
  | JBool (b : bool)
  | JNum (x : num)
  | JStr (s : text)
  | JArr (items : list json)
  | JObj (fields : list (text * json)).


(** ** The encoder: [json.dump(obj, file, indent=4)]

    [ensure_ascii] is on by default: a character outside the printable ASCII
    range, a quote or a backslash is written as an escape. *)

Definition hex_digit (n : N) : N := if n <? 10 then 48 + n else 87 + n.

Definition hex4 (n : N) : text :=
  [hex_digit ((n / 4096) mod 16); hex_digit ((n / 256) mod 16);
   hex_digit ((n / 16) mod 16); hex_digit (n mod 16)].

Definition escape_char (c : N) : text :=
  if c =? 34 then [92; 34]
  else if c =? 92 then [92; 92]
  else if c =? 10 then [92; 110]
  else if c =? 13 then [92; 114]
  else if c =? 9 then [92; 116]
  else if c =? 8 then [92; 98]
  else if c =? 12 then [92; 102]
  else if (32 <=? c) && (c <=? 126) then [c]
  else if c <? 65536 then 92 :: 117 :: hex4 c
  else
    let n := c - 65536 in
    (92 :: 117 :: hex4 (N.lor 55296 (N.land (N.shiftr n 10) 1023)))
      ++ (92 :: 117 :: hex4 (N.lor 56320 (N.land n 1023))).

Definition encode_basestring_ascii (s : text) : text :=
  34 :: flat_map escape_char s ++ [34].

(** [floatstr] for a [float], [int.__repr__] for an [int]. *)
Definition encode_number (x : num) : text :=
  match num_class x with
  | Finite => num_str x
  | IsNaN => str "NaN"
  | IsPosInf => str "Infinity"
  | IsNegInf => str "-Infinity"
  end.

(** A line feed and four spaces per level. *)
Definition newline_indent (level : nat) : text :=
  10 :: repeat 32 (4 * level)%nat.

Fixpoint encode (level : nat) (o : json) : text :=
  match o with
  | JNull => str "null"
  | JBool true => str "true"
  | JBool false => str "false"
  | JNum x => encode_number x
  | JStr s => encode_basestring_ascii s
  | JArr [] => str "[]"
  | JArr (first :: others) =>
      [91] ++ newline_indent (S level) ++ encode (S level) first
        ++ flat_map (fun v => [44] ++ newline_indent (S level)
                                ++ encode (S level) v) others
        ++ newline_indent level ++ [93]
  | JObj [] => str "{}"
  | JObj ((k, first) :: others) =>
      [123] ++ newline_indent (S level)
        ++ encode_basestring_ascii k ++ [58; 32] ++ encode (S level) first
        ++ flat_map (fun kv => [44] ++ newline_indent (S level)
                                 ++ encode_basestring_ascii (fst kv) ++ [58; 32]
                                 ++ encode (S level) (snd kv)) others
        ++ newline_indent level ++ [125]
  end.

Definition json_dumps (o : json) : text := encode 0 o.

(** ** The decoder: [json.load(file)]

    [None] stands for [json.JSONDecodeError].  Every function returns the
    value it read together with the text that follows it. *)

Definition is_ws (c : N) : bool :=
  (c =? 32) || (c =? 9) || (c =? 10) || (c =? 13).

Fixpoint skip_ws (s : text) : text :=
  match s with
  | c :: r => if is_ws c then skip_ws r else s
  | [] => []
  end.

Definition hex_value (c : N) : option N :=
  if (48 <=? c) && (c <=? 57) then Some (c - 48)
  else if (97 <=? c) && (c <=? 102) then Some (c - 87)
  else if (65 <=? c) && (c <=? 70) then Some (c - 55)
  else None.

(** [_decode_uXXXX]: four hexadecimal digits. *)
Definition decode_uXXXX (s : text) : option (N * text) :=
  match s with
  | a :: b :: c :: d :: r =>
      match hex_value a, hex_value b, hex_value c, hex_value d with
      | Some x, Some y, Some z, Some w =>
          Some (4096 * x + 256 * y + 16 * z + w, r)
      | _, _, _, _ => None
      end
  | _ => None
  end.

(** The [BACKSLASH] table of one-letter escapes. *)
Definition backslash_escape (e : N) : option N :=
  if e =? 34 then Some 34
  else if e =? 92 then Some 92
  else if e =? 47 then Some 47
  else if e =? 98 then Some 8
  else if e =? 102 then Some 12
  else if e =? 110 then Some 10
  else if e =? 114 then Some 13
  else if e =? 116 then Some 9
  else None.

Definition is_high_surrogate (u : N) : bool := (55296 <=? u) && (u <=? 56319).
Definition is_low_surrogate (u : N) : bool := (56320 <=? u) && (u <=? 57343).

Definition prepend (c : N) (r : option (text * text)) : option (text * text) :=
  match r with
  | Some (t, rest) => Some (c :: t, rest)
  | None => None
  end.

(** [scanstring] in strict mode, entered after the opening quote. *)
Fixpoint scanstring_from (fuel : nat) (s : text) : option (text * text) :=
  match fuel with
  | O => None
  | S f =>
      match s with
      | [] => None
      | c :: r =>
          if c =? 34 then Some ([], r)
          else if c =? 92 then
            match r with
            | [] => None
            | e :: r1 =>
                if e =? 117 then
                  match decode_uXXXX r1 with
                  | None => None
                  | Some (u, r2) =>
                      if is_high_surrogate u then
                        match strip_prefix [92; 117] r2 with
                        | Some r3 =>
                            match decode_uXXXX r3 with
                            | None => None
                            | Some (u2, r4) =>
                                if is_low_surrogate u2
                                then prepend
                                       (65536 + N.lor (N.shiftl (u - 55296) 10)
                                                      (u2 - 56320))
                                       (scanstring_from f r4)
                                else prepend u (scanstring_from f r2)
                            end
                        | None => prepend u (scanstring_from f r2)
                        end
                      else prepend u (scanstring_from f r2)
                  end
                else
                  match backslash_escape e with
                  | Some c' => prepend c' (scanstring_from f r1)
                  | None => None
                  end
            end
          else if c <? 32 then None
          else prepend c (scanstring_from f r)
      end
  end.

Definition scanstring (s : text) : option (text * text) :=
  scanstring_from (S (List.length s)) s.

(** A literal at the head of the text. *)
Definition literal (word : string) (v : json) (s : text)
  : option (json * text) :=
  match strip_prefix (str word) s with
  | Some rest => Some (v, rest)
  | None => None
  end.

Definition or_else {A : Type} (a b : option A) : option A :=
  match a with
  | Some _ => a
  | None => b
  end.

(** [scan_once], [JSONObject] and [JSONArray] call one another.  Each is
    written first as one step that takes the functions it calls, then the
    three are tied together.  The two loops are entered at the first
    character of a member: after the opening quote of a key for an object,
    at the value for an array. *)

Definition decoded : Type := option (json * text).

(** One value at the head of the text. *)
Definition scan_value
    (object_members : list (text * json) -> text -> decoded)
    (array_items : list json -> text -> decoded) (s : text) : decoded :=
  match s with
  | [] => None
  | c :: r =>
      if c =? 34 then
        match scanstring r with
        | Some (t, rest) => Some (JStr t, rest)
        | None => None
        end
      else if c =? 123 then
        match skip_ws r with
        | c1 :: r1 =>
            if c1 =? 125 then Some (JObj [], r1)
            else if c1 =? 34 then object_members [] r1
            else None
        | [] => None
        end
      else if c =? 91 then
        match skip_ws r with
        | c1 :: r1 =>
            if c1 =? 93 then Some (JArr [], r1)
            else array_items [] (c1 :: r1)
        | [] => None
        end
      else
        or_else (literal "null" JNull s)
       (or_else (literal "true" (JBool true) s)
       (or_else (literal "false" (JBool false) s)
       (match scan_number s with
        | Some (x, rest) => Some (JNum x, rest)
        | None =>
            or_else (literal "NaN" (JNum num_nan) s)
           (or_else (literal "Infinity" (JNum num_inf) s)
                    (literal "-Infinity" (JNum num_neg_inf) s))
        end)))
  end.

(** One member of an object and what follows it; [pairs] are the members
    read so far. *)
Definition object_member
    (value_at : text -> decoded)
    (object_members : list (text * json) -> text -> decoded)
    (pairs : list (text * json)) (s : text) : decoded :=
  match scanstring s with
  | None => None
  | Some (key, s1) =>
      match skip_ws s1 with
      | c :: s2 =>
          if c =? 58 then
            match value_at (skip_ws s2) with
            | None => None
            | Some (value, s3) =>
                let pairs' := dict_set key value pairs in
                match skip_ws s3 with
                | c' :: s4 =>
                    if c' =? 125 then Some (JObj pairs', s4)
                    else if c' =? 44 then
                      match skip_ws s4 with
                      | q :: s5 =>
                          if q =? 34 then object_members pairs' s5 else None
                      | [] => None
                      end
                    else None
                | [] => None
                end
            end
          else None
      | [] => None
      end
  end.

(** One item of an array and what follows it; [values] are the items read
    so far. *)
Definition array_item
    (value_at : text -> decoded)
    (array_items : list json -> text -> decoded)
    (values : list json) (s : text) : decoded :=
  match value_at s with
  | None => None
  | Some (value, s1) =>
      match skip_ws s1 with
      | c :: s2 =>
          if c =? 93 then Some (JArr (values ++ [value]), s2)
          else if c =? 44 then array_items (values ++ [value]) (skip_ws s2)
          else None
      | [] => None
      end
  end.

Fixpoint scan_once (fuel : nat) (s : text) {struct fuel} : decoded :=
  match fuel with
  | O => None
  | S f => scan_value (object_loop f) (array_loop f) s
  end

with object_loop (fuel : nat) (pairs : list (text * json)) (s : text)
       {struct fuel} : decoded :=
  match fuel with
  | O => None
  | S f => object_member (scan_once f) (object_loop f) pairs s
  end

with array_loop (fuel : nat) (values : list json) (s : text)
       {struct fuel} : decoded :=
  match fuel with
  | O => None
  | S f => array_item (scan_once f) (array_loop f) values s
  end.

(** [JSONDecoder.decode]: leading blanks, one value, trailing blanks, end.
    Every nested call starts at least one character further into the text
    than the call two levels above it, so twice the length of the text is
    fuel enough (see [json_loads_fuel]). *)
Definition json_loads (s : text) : option json :=
  match scan_once (2 * List.length s + 2)%nat (skip_ws s) with
  | Some (v, rest) =>
      match skip_ws rest with
      | [] => Some v
      | _ :: _ => None
      end
  | None => None
  end.

(** ** The tracker

    [data] is [self.data].  The rest of the state is the world the methods
    act on: the content of [consumption_data.json] ([None] when the file
    does not exist), the lines printed so far, and what the file system will
    answer to the coming attempts to write the file. *)

Inductive write_outcome : Type :=
  | WriteOk
  (** [open] raises: the file is left as it was *)
  | OpenFails (detail : text)
  (** a write raises after [written] characters *)
  | WriteFails (written : nat) (detail : text)
  (** everything was handed over, closing the file raises *)
  | CloseFails (written : nat) (detail : text).

Record state : Type := mkState {
  data : json;
  file : option text;
  stdout : list text;
  io : list write_outcome
}.

Inductive exn : Type := AttributeError | TypeError | KeyError.

Inductive outcome : Type :=
  | Returns (s : state)
  | Raises (e : exn) (s : state).

Definition print (line : text) (s : state) : state :=
  mkState (data s) (file s) (stdout s ++ [line]) (io s).

Definition set_data (d : json) (s : state) : state :=
  mkState d (file s) (stdout s) (io s).

Definition set_file (f : option text) (s : state) : state :=
  mkState (data s) f (stdout s) (io s).

(** The answer of the file system to the next write attempt. *)
Definition next_write (s : state) : write_outcome * state :=
  match io s with
  | [] => (WriteOk, s)
  | o :: rest => (o, mkState (data s) (file s) (stdout s) rest)
  end.

Definition empty_data : json :=
  JObj [(str "energy", JArr []); (str "water", JArr []); (str "waste", JArr [])].

(** [load_data]: a missing file and an undecodable file are reported and
    leave [self.data] as it is.  Any other failure to open or read the file
    is not caught by the method and is not part of this state. *)
Definition load_data (s : state) : outcome :=
  match file s with
  | Some content =>
      match json_loads content with
      | Some d => Returns (print (str "Data loaded successfully.") (set_data d s))
      | None =>
          Returns (print (str "Error decoding JSON file, starting with an empty dataset.") s)
      end
  | None =>
      Returns (print (str "No existing data found, starting with an empty dataset.") s)
  end.

Definition __init__ (s : state) : outcome :=
  load_data (set_data empty_data s).

Definition save_error (detail : text) : text :=
  str "An error occurred while saving data: " ++ detail.

(** [save_data]: one attempt to open and write the file. *)
Definition save_data (s : state) : outcome :=
  let '(answer, s1) := next_write s in
  let content := json_dumps (data s1) in
  match answer with
  | WriteOk =>
      Returns (print (str "Data saved successfully.") (set_file (Some content) s1))
  | OpenFails detail =>
      Returns (print (save_error detail) s1)
  | WriteFails written detail =>
      Returns (print (save_error detail)
                 (set_file (Some (firstn written content)) s1))
  | CloseFails written detail =>
      Returns (print (save_error detail)
                 (print (str "Data saved successfully.")
                    (set_file (Some (firstn written content)) s1)))
  end.

(** A calendar date, as [datetime.datetime.now()] gives it. *)
Record date : Type := mkDate { year : N; month : N; day : N }.

Definition two_digits (n : N) : text :=
  [48 + (n / 10) mod 10; 48 + n mod 10].

Definition four_digits (n : N) : text :=
  [48 + (n / 1000) mod 10; 48 + (n / 100) mod 10;
   48 + (n / 10) mod 10; 48 + n mod 10].

(** [strftime('%Y-%m-%d')].  Below the year 1000 it is the C library that
    decides whether [%Y] is padded to four digits; it is padded here. *)
Definition strftime_Ymd (d : date) : text :=
  four_digits (year d) ++ [45] ++ two_digits (month d) ++ [45]
    ++ two_digits (day d).

Definition resource_entry (now : date) (amount : num) : json :=
  JObj [(str "date", JStr (strftime_Ymd now)); (str "amount", JNum amount)].

(** [log_consumption].  [resource_data] is the list held by the dictionary,
    not a copy: appending to it changes the value under that key, in place.
    No two keys hold the same list object (the constructor writes three list
    literals, [json.load] builds a new list for every array, and nothing
    stores a list under a second key), so on the document the append is the
    replacement of that one value.  The list objects themselves are spelled
    out below ([store], [log_consumption_in_place]). *)
Definition log_consumption (now : date) (resource_type : text) (amount : num)
    (s : state) : outcome :=
  match data s with
  | JObj fields =>
      match dict_get resource_type fields with
      | None | Some JNull =>
          Returns (print (str "Resource type '" ++ resource_type
                            ++ str "' is not recognized.") s)
      | Some (JArr resource_data) =>
          let resource_data' := resource_data ++ [resource_entry now amount] in
          Returns
            (print (capitalize resource_type ++ str " consumption logged: "
                      ++ num_str amount)
               (set_data (JObj (dict_set resource_type (JArr resource_data') fields)) s))
      | Some _ => Raises AttributeError s
      end
  | _ => Raises AttributeError s
  end.

Definition recommendations : list (text * text) :=
  [(str "energy", str "Consider using energy-efficient appliances or LED lighting.");
   (str "water", str "Consider shorter showers or fixing leaks.");
   (str "waste", str "Improve recycling efforts or compost organic waste.")].

Definition provide_recommendations (resource_type : text) (total : num)
    (s : state) : outcome :=
  if num_gt total (num_of_int 100) then
    Returns
      (print (str "Recommendation for " ++ resource_type ++ str ": "
                ++ match dict_get resource_type recommendations with
                   | Some advice => advice
                   | None => str "No recommendation available."
                   end) s)
  else
    Returns
      (print (capitalize resource_type
                ++ str " consumption is within acceptable limits.") s).

(** [for record in records]: what the loop visits. *)
Definition iterate (records : json) : option (list json) :=
  match records with
  | JArr items => Some items
  | JObj fields => Some (map (fun kv => JStr (fst kv)) fields)
  | JStr s => Some (map (fun c => JStr [c]) s)
  | _ => None
  end.

(** [record['amount']] *)
Definition subscript_amount (record : json) : exn + json :=
  match record with
  | JObj fields =>
      match dict_get (str "amount") fields with
      | Some v => inr v
      | None => inl KeyError
      end
  | _ => inl TypeError
  end.

(** [total + v] for a number [total]; a [bool] counts as 0 or 1. *)
Definition add_amount (total : num) (v : json) : exn + num :=
  match v with
  | JNum x => inr (num_add total x)
  | JBool b => inr (num_add total (num_of_int (if b then 1 else 0)))
  | _ => inl TypeError
  end.

(** [sum(record['amount'] for record in records)]: [sum] starts from the
    [int] 0 and adds the items from left to right. *)
Fixpoint sum_amounts (records : list json) (total : num) : exn + num :=
  match records with
  | [] => inr total
  | record :: rest =>
      match subscript_amount record with
      | inl e => inl e
      | inr v =>
          match add_amount total v with
          | inl e => inl e
          | inr total' => sum_amounts rest total'
          end
      end
  end.

Definition total_line (resource_type : text) (total : num) : text :=
  capitalize resource_type ++ str ": Total consumption = " ++ num_str total.

(** The body of the loop of [generate_report]. *)
Definition report_category (resource_type : text) (records : json) (s : state)
  : outcome :=
  match iterate records with
  | None => Raises TypeError s
  | Some items =>
      match sum_amounts items (num_of_int 0) with
      | inl e => Raises e s
      | inr total =>
          provide_recommendations resource_type total
            (print (total_line resource_type total) s)
      end
  end.

Fixpoint report_loop (items : list (text * json)) (s : state) : outcome :=
  match items with
  | [] => Returns s
  | (resource_type, records) :: rest =>
      match report_category resource_type records s with
      | Returns s' => report_loop rest s'
      | Raises e s' => Raises e s'
      end
  end.

Definition generate_report (s : state) : outcome :=
  let s1 := print (10 :: str "--- Consumption Report ---") s in
  match data s1 with
  | JObj fields => report_loop fields s1
  | _ => Raises AttributeError s1
  end.

(** ** The menu loop and the program

    [main] reads lines from the keyboard.  A line comes with the date of the
    clock at the moment the program handles it, which is the date
    [log_consumption] stamps on a record when the line is an amount.  An
    entry of [stdout] is one [print] or one prompt of [input].

    [float(text)] belongs to the Python runtime; [None] stands for
    [ValueError]. *)


Section Loop.

Variable float : text -> option num.




End Loop.

(** ** The list objects behind the dictionary

    In Python a list is an object: the dictionary holds a reference to it,
    [self.data.get] hands that reference out, and [append] changes the object
    for every key that refers to it.  A [store] is the dictionary with its
    references and the list objects by address; [view] is the document it
    denotes, which is what [data] holds above. *)

Inductive slot : Type :=
  | ListAt (address : nat)
  | Value (v : json).

Record store : Type := mkStore {
  dict : list (text * slot);
  heap : list (list json)
}.

Definition view_slot (h : list (list json)) (sl : slot) : json :=
  match sl with
  | ListAt a => JArr (nth a h [])
  | Value v => v
  end.

Definition view_field (h : list (list json)) (kv : text * slot) : text * json :=
  (fst kv, view_slot h (snd kv)).

Definition view (st : store) : json :=
  JObj (map (view_field (heap st)) (dict st)).

(** What the dictionary literal of the constructor and [json.load] build:
    a new list object for every array under a key. *)
Fixpoint allocate (fields : list (text * json)) (h : list (list json)) : store :=
  match fields with
  | [] => mkStore [] h
  | (k, JArr items) :: rest =>
      let st := allocate rest (h ++ [items]) in
      mkStore ((k, ListAt (List.length h)) :: dict st) (heap st)
  | (k, v) :: rest =>
      let st := allocate rest h in
      mkStore ((k, Value v) :: dict st) (heap st)
  end.

Fixpoint replace_at {A : Type} (n : nat) (x : A) (l : list A) : list A :=
  match l, n with
  | [], _ => []
  | _ :: t, O => x :: t
  | y :: t, S n' => y :: replace_at n' x t
  end.

(** What a call of [log_consumption] does to the objects. *)
Inductive effect : Type :=
  | Appended (st : store)
  | Unrecognized
  | NoAppend.

Definition log_consumption_in_place (now : date) (resource_type : text)
    (amount : num) (st : store) : effect :=
  match dict_get resource_type (dict st) with
  | None | Some (Value JNull) => Unrecognized
  | Some (ListAt a) =>
      Appended
        (mkStore (dict st)
           (replace_at a (nth a (heap st) [] ++ [resource_entry now amount])
              (heap st)))
  | Some (Value _) => NoAppend
  end.

Definition addresses (d : list (text * slot)) : list nat :=
  flat_map (fun kv => match snd kv with
                      | ListAt a => [a]
                      | Value _ => []
                      end) d.

Definition is_array (v : json) : bool :=
  match v with
  | JArr _ => true
  | _ => false
  end.

Definition no_array_value (kv : text * slot) : bool :=
  match snd kv with
  | ListAt _ => true
  | Value v => negb (is_array v)
  end.

(** No list object is shared by two keys, every reference is to an object
    of the heap, and every list is such an object. *)
Definition separate (st : store) : Prop :=
  NoDup (addresses (dict st))
  /\ Forall (fun a => (a < List.length (heap st))%nat) (addresses (dict st))
  /\ forallb no_array_value (dict st) = true.

(** ** The data model of the specification

    A record is a date and an amount; a Dataset maps a category to its
    records, oldest first.  [dataset_json] is the dictionary that holds it in
    [self.data]. *)

Record consumption_record : Type := mkRecord {
  rec_date : text;
  rec_amount : num
}.

Definition dataset : Type := list (text * list consumption_record).

Definition record_json (r : consumption_record) : json :=
  JObj [(str "date", JStr (rec_date r)); (str "amount", JNum (rec_amount r))].

Definition category_json (entry : text * list consumption_record) : text * json :=
  (fst entry, JArr (map record_json (snd entry))).

Definition dataset_json (ds : dataset) : json :=
  JObj (map category_json ds).


(** The sequence stored under a category, when there is one. *)
Definition records_of (category : text) (d : json) : option (list json) :=
  match d with
  | JObj fields =>
      match dict_get category fields with
      | Some (JArr records) => Some records
      | _ => None
      end
  | _ => None
  end.


(** A date in the form [YYYY-MM-DD]: ten characters, digits around two
    hyphens. *)
Definition is_iso_date (t : text) : bool :=
  match t with
  | [y1; y2; y3; y4; h1; m1; m2; h2; d1; d2] =>
      forallb is_digit [y1; y2; y3; y4; m1; m2; d1; d2]
        && (h1 =? 45) && (h2 =? 45)
  | _ => false
  end.

(** Reading such a date back: the numbers its digits denote. *)
Definition read_iso_date (t : text) : option date :=
  match t with
  | [y1; y2; y3; y4; _; m1; m2; _; d1; d2] =>
      Some (mkDate (1000 * (y1 - 48) + 100 * (y2 - 48) + 10 * (y3 - 48) + (y4 - 48))
                   (10 * (m1 - 48) + (m2 - 48))
                   (10 * (d1 - 48) + (d2 - 48)))
  | _ => None
  end.

(** The dates of a clock set to a year of four digits. *)
Definition valid_date (d : date) : Prop :=
  1000 <= year d <= 9999 /\ 1 <= month d <= 12 /\ 1 <= day d <= 31.

(** A sequence of [log_consumption] calls, stopping at the first exception. *)
Fixpoint log_all (calls : list (date * text * num)) (s : state) : outcome :=
  match calls with
  | [] => Returns s
  | (now, resource_type, amount) :: rest =>
      match log_consumption now resource_type amount s with
      | Returns s' => log_all rest s'
      | Raises e s' => Raises e s'
      end
  end.

(** How many of the calls name this category. *)
Definition calls_naming (category : text) (calls : list (date * text * num)) : nat :=
  List.length (filter (fun call => text_eqb (snd (fst call)) category) calls).


(** The detail carried by a failed write attempt. *)
Definition failure_detail (answer : write_outcome) : option text :=
  match answer with
  | WriteOk => None
  | OpenFails detail => Some detail
  | WriteFails _ detail => Some detail
  | CloseFails _ detail => Some detail
  end.

(** The three categories of the constructor. *)
Definition categories : list text := [str "energy"; str "water"; str "waste"].

(** Appending a record to a category of a Dataset; nothing changes when the
    category is not one of its keys. *)
Definition append_record (category : text) (r : consumption_record)
    (ds : dataset) : dataset :=
  match dict_get category ds with
  | Some records => dict_set category (records ++ [r]) ds
  | None => ds
  end.

(** The Dataset after a sequence of calls. *)
Fixpoint apply_calls (calls : list (date * text * num)) (ds : dataset) : dataset :=
  match calls with
  | [] => ds
  | (now, category, amount) :: rest =>
      apply_calls rest
        (append_record category (mkRecord (strftime_Ymd now) amount) ds)
  end.

Definition empty_dataset : dataset :=
  [(str "energy", []); (str "water", []); (str "waste", [])].

(** The two lines of the report for a category with a given total. *)
Definition recommendation_line (category : text) (total : num) : text :=
  if num_gt total (num_of_int 100) then
    str "Recommendation for " ++ category ++ str ": "
      ++ match dict_get category recommendations with
         | Some advice => advice
         | None => str "No recommendation available."
         end
  else capitalize category ++ str " consumption is within acceptable limits.".


(** The state an outcome leaves behind. *)
Definition state_of (o : outcome) : state :=
  match o with
  | Returns s => s
  | Raises _ s => s
  end.


(** Documents that [json.dump] writes without escapes and special tokens:
    strings of printable ASCII characters other than the quote and the
    backslash, finite numbers, dictionaries with distinct keys. *)
Definition plain_char (c : N) : bool :=
  (32 <=? c) && (c <=? 126) && negb (c =? 34) && negb (c =? 92).

Definition plain (t : text) : bool := forallb plain_char t.

Fixpoint distinct (ks : list text) : bool :=
  match ks with
  | [] => true
  | k :: rest => negb (existsb (text_eqb k) rest) && distinct rest
  end.

Fixpoint plain_json (o : json) : bool :=
  match o with
  | JNull | JBool _ => true
  | JNum x => match num_class x with Finite => true | _ => false end
  | JStr s => plain s
  | JArr items => forallb plain_json items
  | JObj fields =>
      distinct (keys fields)
        && forallb (fun kv => plain (fst kv) && plain_json (snd kv)) fields
  end.

(** The longest chain of nested decoder calls a document needs. *)
Fixpoint weight (o : json) : nat :=
  match o with
  | JArr items => S (fold_right (fun v n => S (weight v + n)) O items)
  | JObj fields => S (fold_right (fun kv n => S (weight (snd kv) + n)) O fields)
  | _ => 1%nat
  end.

(** What follows a number in the output of the encoder: the end of the
    text, a comma or a line feed. *)
Definition number_stops (rest : text) : bool :=
  match rest with
  | [] => true
  | c :: _ => (c =? 44) || (c =? 10)
  end.

(** The characters a JSON value can start with. *)
Definition value_start (c : N) : bool :=
  is_digit c || (c =? 45) || (c =? 34) || (c =? 91) || (c =? 123)
    || (c =? 110) || (c =? 116) || (c =? 102).

Definition finite (x : num) : bool :=
  match num_class x with
  | Finite => true
  | _ => false
  end.

(** Datasets whose dictionary the encoder writes plainly: distinct, plain
    category names, plain dates, finite amounts. *)
Definition plain_record (r : consumption_record) : bool :=
  plain (rec_date r) && finite (rec_amount r).

Definition plain_category (entry : text * list consumption_record) : bool :=
  plain (fst entry) && forallb plain_record (snd entry).

Definition plain_dataset (ds : dataset) : bool :=
  distinct (keys ds) && forallb plain_category ds.

(** A decoding function never returns more text than it was given. *)
Definition shrinks {A : Type} (scan : A -> text -> decoded) : Prop :=
  forall (a : A) (s : text) (v : json) (r : text),
    scan a s = Some (v, r) -> (List.length r <= List.length s)%nat.

(** The text of an item of an array after the first, and of a member of an
    object after the first, as [encode] writes them; the fuel the items and
    the members need. *)
Definition item_text (level : nat) (v : json) : text :=
  [44] ++ newline_indent (S level) ++ encode (S level) v.

Definition member_text (level : nat) (kv : text * json) : text :=
  [44] ++ newline_indent (S level) ++ encode_basestring_ascii (fst kv)
    ++ [58; 32] ++ encode (S level) (snd kv).

Definition items_weight (items : list json) : nat :=
  fold_right (fun v n => S (weight v + n)) O items.

Definition fields_weight (fields : list (text * json)) : nat :=
  fold_right (fun kv n => S (weight (snd kv) + n)) O fields.

Definition plain_member (kv : text * json) : bool :=
  plain (fst kv) && plain_json (snd kv).

(** What a value decodes to, stated for every level of indentation, every
    continuation and every sufficient amount of fuel. *)
Definition decodes (o : json) : Prop :=
  forall (level : nat) (rest : text) (fuel : nat),
    plain_json o = true -> number_stops rest = true ->
    (weight o <= fuel)%nat ->
    scan_once fuel (encode level o ++ rest) = Some (o, rest).

(** ** What a session asks for

    Read off the lines typed, for stating what [main] does. *)

Section LoopModel.

Variable float : text -> option num.






End LoopModel.

(** The first line of the report. *)
Definition report_header : text := 10 :: str "--- Consumption Report ---".


(** The records among the calls that name a category, in the order of the
    calls. *)
Definition records_naming (category : text) (calls : list (date * text * num))
  : list consumption_record :=
  map (fun call => mkRecord (strftime_Ymd (fst (fst call))) (snd call))
    (filter (fun call => text_eqb (snd (fst call)) category) calls).







(** ** Properties *)

Lemma text_eqb_eq (a b : text) : text_eqb a b = true <-> a = b.
Proof.
  revert b; induction a as [|x a IH]; intros [|y b]; simpl; split;
    try congruence; try discriminate.
  - rewrite andb_true_iff, N.eqb_eq, IH. intros [-> ->]; reflexivity.
  - intros H; injection H as -> ->.
    rewrite N.eqb_refl; simpl. apply IH; reflexivity.
Qed.

Lemma text_eqb_refl (a : text) : text_eqb a a = true.
Proof. apply text_eqb_eq; reflexivity. Qed.

Lemma text_eqb_neq (a b : text) : text_eqb a b = false <-> a <> b.
Proof.
  rewrite <- text_eqb_eq. destruct (text_eqb a b); split; congruence.
Qed.

Lemma text_eqb_sym (a b : text) : text_eqb a b = text_eqb b a.
Proof.
  destruct (text_eqb a b) eqn:E; symmetry.
  - apply text_eqb_eq in E; subst; apply text_eqb_refl.
  - apply text_eqb_neq; apply text_eqb_neq in E; congruence.
Qed.

Section DictFacts.

Context {V : Type}.
Implicit Types (d : list (text * V)) (k : text) (v : V).

Lemma dict_get_None k d : dict_get k d = None <-> ~ In k (keys d).
Proof.
  induction d as [|[k' v'] d IH]; simpl.
  - tauto.
  - destruct (text_eqb k k') eqn:E.
    + apply text_eqb_eq in E; subst. split; [discriminate | tauto].
    + apply text_eqb_neq in E. rewrite IH. split; [intros H [?|?] | ]; try tauto.
      congruence.
Qed.

Lemma dict_get_set_same k v d : dict_get k (dict_set k v d) = Some v.
Proof.
  induction d as [|[k' v'] d IH]; simpl.
  - rewrite text_eqb_refl; reflexivity.
  - destruct (text_eqb k k') eqn:E; simpl; rewrite E; auto.
Qed.

Lemma dict_get_set_other k k' v d :
  k' <> k -> dict_get k' (dict_set k v d) = dict_get k' d.
Proof.
  intros Hne. induction d as [|[k0 v0] d IH]; simpl.
  - apply text_eqb_neq in Hne; rewrite Hne; reflexivity.
  - destruct (text_eqb k k0) eqn:E; simpl.
    + apply text_eqb_eq in E; subst k0.
      apply text_eqb_neq in Hne; rewrite Hne; reflexivity.
    + rewrite IH; reflexivity.
Qed.

Lemma keys_dict_set_present k v v0 d :
  dict_get k d = Some v0 -> keys (dict_set k v d) = keys d.
Proof.
  induction d as [|[k0 v1] d IH]; simpl; [discriminate|].
  destruct (text_eqb k k0) eqn:E; simpl; [reflexivity|].
  intros H; rewrite (IH H); reflexivity.
Qed.

End DictFacts.

(** *** [log_consumption] *)

Ltac div_mod_to_equations := Z.to_euclidean_division_equations.

Lemma four_digits_spec (n : N) :
  n <= 9999 ->
  exists a b c d, four_digits n = [48 + a; 48 + b; 48 + c; 48 + d]
    /\ a <= 9 /\ b <= 9 /\ c <= 9 /\ d <= 9
    /\ 1000 * a + 100 * b + 10 * c + d = n.
Proof.
  intros Hn. exists ((n / 1000) mod 10), ((n / 100) mod 10), ((n / 10) mod 10), (n mod 10).
  split; [reflexivity|].
  repeat split; zify; div_mod_to_equations; lia.
Qed.

Lemma two_digits_spec (n : N) :
  n <= 99 ->
  exists a b, two_digits n = [48 + a; 48 + b]
    /\ a <= 9 /\ b <= 9 /\ 10 * a + b = n.
Proof.
  intros Hn. exists ((n / 10) mod 10), (n mod 10).
  split; [reflexivity|].
  repeat split; zify; div_mod_to_equations; lia.
Qed.

Lemma is_digit_offset (a : N) : a <= 9 -> is_digit (48 + a) = true.
Proof.
  intros H. unfold is_digit. apply andb_true_iff; split; apply N.leb_le; lia.
Qed.

Lemma strftime_Ymd_format (now : date) :
  valid_date now ->
  is_iso_date (strftime_Ymd now) = true
  /\ read_iso_date (strftime_Ymd now) = Some now.
Proof.
  intros (Hy & Hm & Hd). destruct now as [y m d]; cbn [year month day] in *.
  destruct (four_digits_spec y) as (a & b & c & e & Ey & Ha & Hb & Hc & He & Eyv);
    [lia|].
  destruct (two_digits_spec m) as (m1 & m2 & Em & Hm1 & Hm2 & Emv); [lia|].
  destruct (two_digits_spec d) as (d1 & d2 & Ed & Hd1 & Hd2 & Edv); [lia|].
  unfold strftime_Ymd; cbn [year month day].
  rewrite Ey, Em, Ed. cbn [app is_iso_date read_iso_date forallb].
  rewrite !is_digit_offset by assumption.
  split; [reflexivity|].
  f_equal. f_equal; lia.
Qed.


(** C8: when the category is a key holding a sequence, [log_consumption]
    returns normally and that sequence has exactly one more record, at its
    end, whose amount is the given value, whatever its sign or size, and
    whose date is the current date written as four digits, two digits and
    two digits separated by hyphens. *)
Theorem log_consumption_appends
    (now : date) (category : text) (amount : num) (s : state)
    (fields : list (text * json)) (records : list json) :
  valid_date now ->
  data s = JObj fields ->
  dict_get category fields = Some (JArr records) ->
  exists s',
    log_consumption now category amount s = Returns s'
    /\ records_of category (data s')
       = Some (records ++ [record_json (mkRecord (strftime_Ymd now) amount)])
    /\ is_iso_date (strftime_Ymd now) = true
    /\ read_iso_date (strftime_Ymd now) = Some now.
Proof.
  intros Hnow Hd Hk. unfold log_consumption. rewrite Hd, Hk.
  eexists; split; [reflexivity|].
  split.
  - simpl. rewrite dict_get_set_same. reflexivity.
  - apply strftime_Ymd_format; assumption.
Qed.

(** *** The list objects *)

Lemma length_replace_at {A : Type} (n : nat) (x : A) (l : list A) :
  List.length (replace_at n x l) = List.length l.
Proof.
  revert n; induction l as [|y l IH]; intros [|n]; simpl; auto.
Qed.

Lemma nth_replace_at_same {A : Type} (n : nat) (x d : A) (l : list A) :
  (n < List.length l)%nat -> nth n (replace_at n x l) d = x.
Proof.
  revert n; induction l as [|y l IH]; intros [|n] H; simpl in *; try lia.
  - reflexivity.
  - apply IH; lia.
Qed.

Lemma nth_replace_at_other {A : Type} (n m : nat) (x d : A) (l : list A) :
  n <> m -> nth m (replace_at n x l) d = nth m l d.
Proof.
  revert n m; induction l as [|y l IH]; intros [|n] [|m] H; simpl;
    try reflexivity; try congruence.
  apply IH; congruence.
Qed.

Lemma dict_get_view (category : text) (h : list (list json))
    (d : list (text * slot)) :
  dict_get category (map (view_field h) d)
  = option_map (view_slot h) (dict_get category d).
Proof.
  induction d as [|[k sl] d IH]; simpl; [reflexivity|].
  destruct (text_eqb category k); [reflexivity | exact IH].
Qed.

Lemma dict_get_In {V : Type} (k : text) (v : V) (d : list (text * V)) :
  dict_get k d = Some v -> exists k', In (k', v) d.
Proof.
  induction d as [|[k0 v0] d IH]; simpl; [discriminate|].
  destruct (text_eqb k k0).
  - intros H; injection H as ->. exists k0; left; reflexivity.
  - intros H. destruct (IH H) as (k' & Hin). exists k'; right; exact Hin.
Qed.

Lemma view_field_pair (h : list (list json)) (k : text) (sl : slot) :
  view_field h (k, sl) = (k, view_slot h sl).
Proof. reflexivity. Qed.

(** Writing to an object that none of these keys refers to changes none of
    their values. *)
Lemma view_unchanged (a : nat) (new : list json) (h : list (list json))
    (d : list (text * slot)) :
  ~ In a (addresses d) ->
  map (view_field (replace_at a new h)) d = map (view_field h) d.
Proof.
  induction d as [|[k sl] d IH]; intros Hout; [reflexivity|].
  cbn [map]. rewrite IH.
  - f_equal. rewrite !view_field_pair. f_equal.
    destruct sl as [b|v]; [|reflexivity]. cbn [view_slot].
    rewrite nth_replace_at_other; [reflexivity|].
    intros ->. apply Hout. left; reflexivity.
  - intros Hin. apply Hout. unfold addresses in *. cbn [flat_map].
    apply in_or_app; right; exact Hin.
Qed.

(** Writing to the object of a key replaces the value of that key. *)
Lemma view_append (a : nat) (new : list json) (h : list (list json))
    (d : list (text * slot)) (category : text) :
  NoDup (addresses d) -> (a < List.length h)%nat ->
  dict_get category d = Some (ListAt a) ->
  map (view_field (replace_at a new h)) d
  = dict_set category (JArr new) (map (view_field h) d).
Proof.
  intros Hnd Ha. induction d as [|[k sl] d IH]; [discriminate|].
  cbn [dict_get map dict_set]. rewrite !view_field_pair.
  cbn [dict_set]. destruct (text_eqb category k) eqn:E.
  - intros H; injection H as ->. cbn [view_slot].
    rewrite nth_replace_at_same by exact Ha.
    rewrite view_unchanged; [reflexivity|].
    unfold addresses in Hnd; cbn [flat_map snd app] in Hnd.
    inversion Hnd; assumption.
  - intros Hget. unfold addresses in Hnd; cbn [flat_map snd] in Hnd.
    assert (Hrest : NoDup (addresses d)).
    { destruct sl; [inversion Hnd; assumption | exact Hnd]. }
    rewrite (IH Hrest Hget). f_equal. f_equal.
    destruct sl as [b|v]; [|reflexivity]. cbn [view_slot].
    rewrite nth_replace_at_other; [reflexivity|].
    intros ->. cbn [app] in Hnd. inversion Hnd as [|? ? Hnotin _]; subst.
    apply Hnotin. clear - Hget.
    induction d as [|[k0 sl0] d IH]; [discriminate|].
    cbn [dict_get] in Hget. unfold addresses; cbn [flat_map snd].
    destruct (text_eqb category k0).
    + injection Hget as ->. left; reflexivity.
    + apply in_or_app; right. apply IH; exact Hget.
Qed.

Lemma allocate_spec (fields : list (text * json)) :
  forall h : list (list json),
    (exists h', heap (allocate fields h) = h ++ h')
    /\ map (view_field (heap (allocate fields h))) (dict (allocate fields h))
       = fields
    /\ NoDup (addresses (dict (allocate fields h)))
    /\ Forall (fun a => (List.length h <= a
                         < List.length (heap (allocate fields h)))%nat)
         (addresses (dict (allocate fields h)))
    /\ forallb no_array_value (dict (allocate fields h)) = true.
Proof.
  induction fields as [|[k v] fields IH]; intros h.
  - simpl. repeat split; try constructor. exists []; rewrite app_nil_r; reflexivity.
  - destruct v as [ | b | x | s | items | fs];
      try (cbn [allocate dict heap];
           destruct (IH h) as ((h' & Hh) & Hview & Hnd & Hin & Hno);
           repeat split;
           [ exists h'; exact Hh
           | cbn [map]; rewrite view_field_pair, Hview; reflexivity
           | exact Hnd | exact Hin
           | cbn [forallb no_array_value snd is_array negb andb]; exact Hno ]).
    cbn [allocate dict heap].
    destruct (IH (h ++ [items])) as ((h' & Hh) & Hview & Hnd & Hin & Hno).
    rewrite <- app_assoc in Hh. cbn [app] in Hh.
    repeat split.
    + exists (items :: h'); exact Hh.
    + cbn [map]. rewrite view_field_pair, Hview. cbn [view_slot].
      rewrite Hh, nth_middle. reflexivity.
    + unfold addresses; cbn [flat_map snd app]. constructor; [|exact Hnd].
      intros Hbad. rewrite Forall_forall in Hin. specialize (Hin _ Hbad).
      rewrite length_app in Hin; simpl in Hin. lia.
    + unfold addresses; cbn [flat_map snd app]. constructor.
      * rewrite Hh, length_app; simpl. lia.
      * eapply Forall_impl; [|exact Hin]. intros a0 Ha0.
        rewrite length_app in Ha0; simpl in Ha0. lia.
    + cbn [forallb no_array_value snd andb]. exact Hno.
Qed.

(** The objects of a newly built dictionary denote the document they were
    built from, and no two keys share one. *)
Lemma allocate_view (fields : list (text * json)) :
  view (allocate fields []) = JObj fields /\ separate (allocate fields []).
Proof.
  destruct (allocate_spec fields []) as (_ & Hview & Hnd & Hin & Hno).
  split.
  - unfold view. rewrite Hview. reflexivity.
  - repeat split; [exact Hnd | | exact Hno].
    eapply Forall_impl; [|exact Hin]. intros a Ha; cbv beta in *; lia.
Qed.

Lemma separate_replace_at (st : store) (a : nat) (new : list json) :
  separate st -> separate (mkStore (dict st) (replace_at a new (heap st))).
Proof.
  intros (Hnd & Hin & Hno). repeat split; cbn [dict heap];
    [exact Hnd | | exact Hno].
  rewrite length_replace_at. exact Hin.
Qed.

(** [log_consumption] on the document is what the call does to the objects:
    the keys stay separate, and the document of the new objects is the new
    [data]. *)
Lemma log_consumption_in_place_simulates
    (now : date) (category : text) (amount : num) (st : store) (s : state) :
  separate st -> data s = view st ->
  match log_consumption_in_place now category amount st with
  | Appended st' =>
      separate st'
      /\ exists s',
           log_consumption now category amount s = Returns s'
           /\ data s' = view st'
  | Unrecognized =>
      exists s',
        log_consumption now category amount s = Returns s' /\ data s' = data s
  | NoAppend => log_consumption now category amount s = Raises AttributeError s
  end.
Proof.
  intros Hsep Hd. pose proof Hsep as (Hnd & Hin & Hno).
  unfold log_consumption_in_place, log_consumption. rewrite Hd. unfold view.
  rewrite dict_get_view.
  destruct (dict_get category (dict st)) as [[a|v]|] eqn:E; cbn [option_map view_slot].
  - assert (Ha : (a < List.length (heap st))%nat).
    { rewrite Forall_forall in Hin. apply Hin. clear - E.
      induction (dict st) as [|[k0 sl0] d IH]; [discriminate|].
      cbn [dict_get] in E. unfold addresses; cbn [flat_map snd].
      destruct (text_eqb category k0).
      - injection E as ->. left; reflexivity.
      - apply in_or_app; right. apply IH; exact E. }
    split.
    + apply separate_replace_at; exact Hsep.
    + eexists; split; [reflexivity|]. cbn [data print set_data dict heap].
      rewrite (view_append a _ (heap st) (dict st) category Hnd Ha E).
      reflexivity.
  - destruct v as [ | b | x | t | items | fs]; try reflexivity.
    + eexists; split; [reflexivity|]. cbn [data print]. exact Hd.
    + exfalso. destruct (dict_get_In _ _ _ E) as (k' & Hk').
      rewrite forallb_forall in Hno. specialize (Hno _ Hk'). discriminate Hno.
  - eexists; split; [reflexivity|]. cbn [data print]. exact Hd.
Qed.

(** C10: where no list object is shared by two keys, as it is in every
    dictionary the constructor or [json.load] builds and after every call, a
    [log_consumption] call that appends a record writes to the list of the
    key it names and to nothing else: the dictionary holds the same keys
    with the same references, the named list has the new record at its end,
    and the value under every other key is what it was. *)
Theorem log_consumption_frame
    (now : date) (category : text) (amount : num) (st : store) (a : nat) :
  separate st ->
  dict_get category (dict st) = Some (ListAt a) ->
  exists st',
    log_consumption_in_place now category amount st = Appended st'
    /\ separate st'
    /\ dict st' = dict st
    /\ view_slot (heap st') (ListAt a)
       = JArr (nth a (heap st) [] ++ [resource_entry now amount])
    /\ forall other sl,
         other <> category -> dict_get other (dict st) = Some sl ->
         view_slot (heap st') sl = view_slot (heap st) sl.
Proof.
  intros Hsep Hget.
  pose proof (separate_replace_at st a
                (nth a (heap st) [] ++ [resource_entry now amount]) Hsep)
    as Hsep'.
  unfold log_consumption_in_place. rewrite Hget.
  destruct Hsep as (Hnd & Hin & Hno).
  assert (Ha : (a < List.length (heap st))%nat).
  { rewrite Forall_forall in Hin. apply Hin. clear - Hget.
    induction (dict st) as [|[k0 sl0] d IH]; [discriminate|].
    cbn [dict_get] in Hget. unfold addresses; cbn [flat_map snd].
    destruct (text_eqb category k0).
    - injection Hget as ->. left; reflexivity.
    - apply in_or_app; right. apply IH; exact Hget. }
  eexists; split; [reflexivity|]. cbn [dict heap].
  split; [exact Hsep'|]. split; [reflexivity|]. split.
  - cbn [view_slot]. rewrite nth_replace_at_same by exact Ha. reflexivity.
  - intros other sl Hne Hother. destruct sl as [b|v]; [|reflexivity].
    cbn [view_slot]. rewrite nth_replace_at_other; [reflexivity|].
    intros ->. clear - Hnd Hget Hother Hne.
    induction (dict st) as [|[k0 sl0] d IH]; [discriminate|].
    cbn [dict_get] in Hget, Hother.
    unfold addresses in Hnd; cbn [flat_map snd] in Hnd.
    destruct (text_eqb category k0) eqn:Ec, (text_eqb other k0) eqn:Eo.
    + apply text_eqb_eq in Ec, Eo. congruence.
    + injection Hget as ->. cbn [app] in Hnd.
      inversion Hnd as [|? ? Hnotin _]; subst. apply Hnotin.
      clear - Hother. induction d as [|[k1 sl1] d IH]; [discriminate|].
      cbn [dict_get] in Hother. unfold addresses; cbn [flat_map snd].
      destruct (text_eqb other k1).
      * injection Hother as ->. left; reflexivity.
      * apply in_or_app; right. apply IH; exact Hother.
    + injection Hother as ->. cbn [app] in Hnd.
      inversion Hnd as [|? ? Hnotin _]; subst. apply Hnotin.
      clear - Hget. induction d as [|[k1 sl1] d IH]; [discriminate|].
      cbn [dict_get] in Hget. unfold addresses; cbn [flat_map snd].
      destruct (text_eqb category k1).
      * injection Hget as ->. left; reflexivity.
      * apply in_or_app; right. apply IH; exact Hget.
    + apply IH; try assumption.
      destruct sl0; [inversion Hnd; assumption | exact Hnd].
Qed.

(** *** [provide_recommendations] *)

(** Of the numbers only this is used: what is at most a bound is not above
    it. *)
Hypothesis num_le_not_gt :
  forall a b : num, num_le a b = true -> num_gt a b = false.




(** *** [save_data] *)

(** C9: when the write attempt fails, [save_data] returns normally, its last
    printed line is the diagnostic, which ends with the detail of the
    failure, the data are what they were, and exactly one write attempt was
    consumed: there is no second try, and when it was [open] that failed the
    file is what it was. *)
Theorem save_data_failure
    (s : state) (answer : write_outcome) (rest : list write_outcome)
    (detail : text) :
  io s = answer :: rest ->
  failure_detail answer = Some detail ->
  exists s',
    save_data s = Returns s'
    /\ data s' = data s
    /\ io s' = rest
    /\ last (stdout s') [] = str "An error occurred while saving data: " ++ detail
    /\ (answer = OpenFails detail -> file s' = file s).
Proof.
  intros Hio Hfail. unfold save_data, next_write. rewrite Hio.
  destruct answer as [|d|n d|n d]; simpl in Hfail; try discriminate;
    injection Hfail as ->; eexists; (split; [reflexivity|]);
    cbn [data io file stdout print set_file];
    repeat split; try (rewrite ?last_last; reflexivity); try discriminate.
Qed.

(** *** Sequences of calls on a Dataset *)

Lemma dict_get_category_json (category : text) (ds : dataset) :
  dict_get category (map category_json ds)
  = option_map (fun records => JArr (map record_json records))
      (dict_get category ds).
Proof.
  induction ds as [|[k rs] ds IH]; simpl; [reflexivity|].
  destruct (text_eqb category k); [reflexivity | exact IH].
Qed.

Lemma dict_set_category_json (category : text) (rs : list consumption_record)
    (ds : dataset) :
  dict_set category (JArr (map record_json rs)) (map category_json ds)
  = map category_json (dict_set category rs ds).
Proof.
  induction ds as [|[k rs0] ds IH]; simpl; [reflexivity|].
  destruct (text_eqb category k); simpl; [reflexivity|].
  rewrite IH; reflexivity.
Qed.

Lemma resource_entry_record (now : date) (amount : num) :
  resource_entry now amount = record_json (mkRecord (strftime_Ymd now) amount).
Proof. reflexivity. Qed.

(** On the dictionary of a Dataset a call never raises, and what it leaves
    is the dictionary of the Dataset with the record appended. *)
Lemma log_consumption_dataset
    (now : date) (category : text) (amount : num) (s : state) (ds : dataset) :
  data s = dataset_json ds ->
  exists s',
    log_consumption now category amount s = Returns s'
    /\ data s' = dataset_json
                   (append_record category (mkRecord (strftime_Ymd now) amount) ds)
    /\ file s' = file s /\ io s' = io s.
Proof.
  intros Hd. unfold log_consumption, append_record, dataset_json in *.
  rewrite Hd, dict_get_category_json.
  destruct (dict_get category ds) as [rs|]; simpl.
  - eexists; split; [reflexivity|]. simpl. repeat split.
    rewrite resource_entry_record.
    change [record_json (mkRecord (strftime_Ymd now) amount)]
      with (map record_json [mkRecord (strftime_Ymd now) amount]).
    rewrite <- map_app, dict_set_category_json. reflexivity.
  - eexists; split; [reflexivity|]. simpl. rewrite Hd. repeat split.
Qed.

Lemma log_all_dataset
    (calls : list (date * text * num)) (s : state) (ds : dataset) :
  data s = dataset_json ds ->
  exists s',
    log_all calls s = Returns s'
    /\ data s' = dataset_json (apply_calls calls ds)
    /\ file s' = file s /\ io s' = io s.
Proof.
  revert s ds. induction calls as [|[[now c] a] calls IH]; intros s ds Hd; simpl.
  - eexists; repeat split; assumption.
  - destruct (log_consumption_dataset now c a s ds Hd) as (s1 & -> & Hd1 & Hf1 & Hio1).
    destruct (IH s1 _ Hd1) as (s' & -> & Hd' & Hf' & Hio').
    eexists; repeat split; congruence.
Qed.

Lemma keys_append_record (category : text) (r : consumption_record) (ds : dataset) :
  keys (append_record category r ds) = keys ds.
Proof.
  unfold append_record. destruct (dict_get category ds) eqn:E; [|reflexivity].
  eapply keys_dict_set_present; eassumption.
Qed.

Lemma keys_apply_calls (calls : list (date * text * num)) (ds : dataset) :
  keys (apply_calls calls ds) = keys ds.
Proof.
  revert ds; induction calls as [|[[now c] a] calls IH]; intros ds; simpl.
  - reflexivity.
  - rewrite IH. apply keys_append_record.
Qed.

Lemma calls_naming_cons (category c : text) (now : date) (a : num)
    (calls : list (date * text * num)) :
  calls_naming category ((now, c, a) :: calls)
  = ((if text_eqb c category then 1 else 0) + calls_naming category calls)%nat.
Proof.
  unfold calls_naming; simpl. destruct (text_eqb c category); reflexivity.
Qed.

(** The length of the sequence of a key after a sequence of calls. *)
Lemma length_apply_calls
    (calls : list (date * text * num)) (ds : dataset) (category : text)
    (records : list consumption_record) :
  dict_get category ds = Some records ->
  exists records',
    dict_get category (apply_calls calls ds) = Some records'
    /\ List.length records' = (List.length records + calls_naming category calls)%nat.
Proof.
  revert ds records.
  induction calls as [|[[now c] a] calls IH]; intros ds records Hget; simpl.
  - exists records; split; [assumption | unfold calls_naming; simpl; lia].
  - rewrite calls_naming_cons.
    set (r := mkRecord (strftime_Ymd now) a).
    destruct (text_eqb c category) eqn:E.
    + apply text_eqb_eq in E; subst c.
      destruct (IH (append_record category r ds) (records ++ [r]))
        as (records' & Hget' & Hlen).
      * unfold append_record. rewrite Hget. apply dict_get_set_same.
      * exists records'; split; [exact Hget'|].
        rewrite Hlen, length_app; simpl; lia.
    + apply text_eqb_neq in E.
      destruct (IH (append_record c r ds) records) as (records' & Hget' & Hlen).
      * unfold append_record.
        destruct (dict_get c ds); [rewrite dict_get_set_other by congruence|];
          exact Hget.
      * exists records'; split; [exact Hget'|]. rewrite Hlen; lia.
Qed.

Lemma dataset_json_empty : dataset_json empty_dataset = empty_data.
Proof. reflexivity. Qed.

(** C5: starting from the empty three-category dictionary, a sequence of
    calls returns normally, each of the three sequences is as long as the
    number of calls that named its category, and one more call naming any
    other category changes nothing in the data. *)
Theorem log_all_lengths (calls : list (date * text * num)) (s : state) :
  data s = empty_data ->
  exists s',
    log_all calls s = Returns s'
    /\ (forall category, In category categories ->
          option_map (@List.length json) (records_of category (data s'))
          = Some (calls_naming category calls))
    /\ (forall now category amount, ~ In category categories ->
          exists s'',
            log_consumption now category amount s' = Returns s''
            /\ data s'' = data s').
Proof.
  intros Hd. rewrite <- dataset_json_empty in Hd.
  destruct (log_all_dataset calls s _ Hd) as (s' & Hrun & Hd' & _ & _).
  exists s'; split; [exact Hrun|]. split.
  - intros category Hin.
    assert (Hget : dict_get category empty_dataset = Some []).
    { destruct Hin as [<- | [<- | [<- | []]]]; reflexivity. }
    destruct (length_apply_calls calls _ _ _ Hget) as (records' & Hget' & Hlen).
    rewrite Hd'. unfold records_of, dataset_json.
    rewrite dict_get_category_json, Hget'. simpl.
    rewrite length_map, Hlen. reflexivity.
  - intros now category amount Hout.
    destruct (log_consumption_dataset now category amount s' _ Hd')
      as (s'' & Hcall & Hd'' & _ & _).
    exists s''; split; [exact Hcall|].
    rewrite Hd'', Hd'. f_equal. unfold append_record.
    replace (dict_get category (apply_calls calls empty_dataset)) with
      (@None (list consumption_record)); [reflexivity|].
    symmetry; apply dict_get_None. rewrite keys_apply_calls. exact Hout.
Qed.

(** *** [generate_report] *)

Lemma provide_recommendations_line (category : text) (total : num) (s : state) :
  provide_recommendations category total s
  = Returns (print (recommendation_line category total) s).
Proof.
  unfold provide_recommendations, recommendation_line.
  destruct (num_gt total (num_of_int 100)); reflexivity.
Qed.







(** *** [load_data] and the constructor *)




(** *** The keys of the dictionary *)




(** *** The encoder and the decoder *)

(** What is used of the numbers here: the text of a finite number starts
    with a digit or a minus sign, and scanning that text where the encoder
    puts it gives the number back. *)
Hypothesis num_str_head :
  forall x : num, num_class x = Finite ->
  exists c t, num_str x = c :: t /\ (is_digit c = true \/ c = 45).

Hypothesis scan_number_str :
  forall (x : num) (rest : text),
  num_class x = Finite -> number_stops rest = true ->
  scan_number (num_str x ++ rest) = Some (x, rest).

Lemma json_nested_ind (P : json -> Prop) :
  P JNull ->
  (forall b, P (JBool b)) ->
  (forall x, P (JNum x)) ->
  (forall s, P (JStr s)) ->
  (forall items, Forall P items -> P (JArr items)) ->
  (forall fields, Forall (fun kv => P (snd kv)) fields -> P (JObj fields)) ->
  forall o, P o.
Proof.
  intros Hnull Hbool Hnum Hstr Harr Hobj.
  fix IH 1. intros [ | b | x | s | items | fields].
  - exact Hnull.
  - apply Hbool.
  - apply Hnum.
  - apply Hstr.
  - apply Harr. induction items as [|v vs IHvs]; constructor.
    + apply IH.
    + exact IHvs.
  - apply Hobj. induction fields as [|[k v] fs IHfs]; constructor.
    + apply IH.
    + exact IHfs.
Qed.

Ltac char_facts :=
  unfold value_start, plain_char, is_digit, is_ws in *;
  repeat match goal with
         | H : _ || _ = true |- _ => apply orb_true_iff in H; destruct H
         | H : _ && _ = true |- _ => apply andb_true_iff in H; destruct H
         | H : negb _ = true |- _ => apply negb_true_iff in H
         | H : (_ =? _) = true |- _ => apply N.eqb_eq in H
         | H : (_ =? _) = false |- _ => apply N.eqb_neq in H
         | H : (_ <=? _) = true |- _ => apply N.leb_le in H
         | H : (_ <? _) = true |- _ => apply N.ltb_lt in H
         | H : _ \/ _ |- _ => destruct H
         end.

Ltac char_goal :=
  repeat match goal with
         | |- _ /\ _ => split
         | |- _ || _ = false => apply orb_false_iff
         | |- (_ =? _) = false => apply N.eqb_neq
         | |- (_ <? _) = false => apply N.ltb_ge
         end; try lia.

Lemma value_start_facts (c : N) :
  value_start c = true ->
  is_ws c = false /\ (c =? 93) = false /\ (c =? 125) = false.
Proof.
  intros H. char_facts; subst; char_goal; reflexivity.
Qed.

Lemma skip_ws_start (c : N) (t : text) :
  is_ws c = false -> skip_ws (c :: t) = c :: t.
Proof. intros H; simpl; rewrite H; reflexivity. Qed.

Lemma skip_ws_spaces (n : nat) (t : text) :
  skip_ws (repeat 32 n ++ t) = skip_ws t.
Proof. induction n as [|n IH]; [reflexivity | exact IH]. Qed.

Lemma skip_ws_newline_indent (level : nat) (t : text) :
  skip_ws (newline_indent level ++ t) = skip_ws t.
Proof. unfold newline_indent. simpl. apply skip_ws_spaces. Qed.

(** **** Strings *)

Lemma escape_plain (s : text) : plain s = true -> flat_map escape_char s = s.
Proof.
  induction s as [|c s IH]; simpl; [reflexivity|].
  intros H. apply andb_true_iff in H as [Hc Hs].
  rewrite (IH Hs). unfold escape_char.
  assert (E : (32 <=? c) && (c <=? 126) = true)
    by (char_facts; apply andb_true_iff; split; apply N.leb_le; lia).
  rewrite E.
  replace (c =? 34) with false by (symmetry; char_facts; char_goal).
  replace (c =? 92) with false by (symmetry; char_facts; char_goal).
  replace (c =? 10) with false by (symmetry; char_facts; char_goal).
  replace (c =? 13) with false by (symmetry; char_facts; char_goal).
  replace (c =? 9) with false by (symmetry; char_facts; char_goal).
  replace (c =? 8) with false by (symmetry; char_facts; char_goal).
  replace (c =? 12) with false by (symmetry; char_facts; char_goal).
  reflexivity.
Qed.

Lemma encode_plain_string (s : text) :
  plain s = true -> encode_basestring_ascii s = 34 :: s ++ [34].
Proof.
  intros H; unfold encode_basestring_ascii; rewrite (escape_plain s H).
  reflexivity.
Qed.

Lemma scanstring_from_plain (s rest : text) (fuel : nat) :
  plain s = true -> (List.length s < fuel)%nat ->
  scanstring_from fuel (s ++ 34 :: rest) = Some (s, rest).
Proof.
  revert fuel; induction s as [|c s IH]; intros fuel Hp Hf.
  - destruct fuel; [simpl in Hf; lia | reflexivity].
  - destruct fuel as [|f]; [simpl in Hf; lia|].
    simpl in Hp. apply andb_true_iff in Hp as [Hc Hs].
    cbn [app scanstring_from].
    replace (c =? 34) with false by (symmetry; char_facts; char_goal).
    replace (c =? 92) with false by (symmetry; char_facts; char_goal).
    replace (c <? 32) with false by (symmetry; char_facts; char_goal).
    rewrite IH; [reflexivity | exact Hs | simpl in Hf; lia].
Qed.

Lemma scanstring_plain (s rest : text) :
  plain s = true -> scanstring (s ++ 34 :: rest) = Some (s, rest).
Proof.
  intros H. unfold scanstring. apply scanstring_from_plain; [exact H|].
  rewrite length_app; simpl; lia.
Qed.

(** **** Values *)

Lemma scan_once_string (f : nat) (r : text) :
  scan_once (S f) (34 :: r)
  = match scanstring r with
    | Some (t, rest) => Some (JStr t, rest)
    | None => None
    end.
Proof. reflexivity. Qed.

Lemma scan_once_array (f : nat) (r : text) :
  scan_once (S f) (91 :: r)
  = match skip_ws r with
    | c1 :: r1 =>
        if c1 =? 93 then Some (JArr [], r1) else array_loop f [] (c1 :: r1)
    | [] => None
    end.
Proof. reflexivity. Qed.

Lemma scan_once_object (f : nat) (r : text) :
  scan_once (S f) (123 :: r)
  = match skip_ws r with
    | c1 :: r1 =>
        if c1 =? 125 then Some (JObj [], r1)
        else if c1 =? 34 then object_loop f [] r1
        else None
    | [] => None
    end.
Proof. reflexivity. Qed.

Lemma scan_once_number (f : nat) (c : N) (r : text) :
  is_digit c = true \/ c = 45 ->
  scan_once (S f) (c :: r)
  = match scan_number (c :: r) with
    | Some (x, rest) => Some (JNum x, rest)
    | None =>
        or_else (literal "NaN" (JNum num_nan) (c :: r))
       (or_else (literal "Infinity" (JNum num_inf) (c :: r))
                (literal "-Infinity" (JNum num_neg_inf) (c :: r)))
    end.
Proof.
  intros H. cbn [scan_once]. unfold scan_value.
  replace (c =? 34) with false by (symmetry; char_facts; char_goal).
  replace (c =? 123) with false by (symmetry; char_facts; char_goal).
  replace (c =? 91) with false by (symmetry; char_facts; char_goal).
  unfold literal at 1 2 3.
  change (str "null") with [110; 117; 108; 108].
  change (str "true") with [116; 114; 117; 101].
  change (str "false") with [102; 97; 108; 115; 101].
  cbn [strip_prefix].
  replace (110 =? c) with false by (symmetry; char_facts; char_goal).
  replace (116 =? c) with false by (symmetry; char_facts; char_goal).
  replace (102 =? c) with false by (symmetry; char_facts; char_goal).
  reflexivity.
Qed.

Lemma array_loop_step (f : nat) (values : list json) (s : text) :
  array_loop (S f) values s
  = match scan_once f s with
    | None => None
    | Some (value, s1) =>
        match skip_ws s1 with
        | c :: s2 =>
            if c =? 93 then Some (JArr (values ++ [value]), s2)
            else if c =? 44 then array_loop f (values ++ [value]) (skip_ws s2)
            else None
        | [] => None
        end
    end.
Proof. reflexivity. Qed.

Lemma object_loop_step (f : nat) (pairs : list (text * json)) (s : text) :
  object_loop (S f) pairs s
  = match scanstring s with
    | None => None
    | Some (key, s1) =>
        match skip_ws s1 with
        | c :: s2 =>
            if c =? 58 then
              match scan_once f (skip_ws s2) with
              | None => None
              | Some (value, s3) =>
                  match skip_ws s3 with
                  | c' :: s4 =>
                      if c' =? 125 then Some (JObj (dict_set key value pairs), s4)
                      else if c' =? 44 then
                        match skip_ws s4 with
                        | q :: s5 =>
                            if q =? 34
                            then object_loop f (dict_set key value pairs) s5
                            else None
                        | [] => None
                        end
                      else None
                  | [] => None
                  end
              end
            else None
        | [] => None
        end
    end.
Proof. reflexivity. Qed.

Lemma encode_head (level : nat) (o : json) :
  plain_json o = true ->
  exists c t, encode level o = c :: t /\ value_start c = true.
Proof.
  destruct o as [ | [|] | x | s | [|v vs] | [|[k v] fs]]; intros Hp;
    try (eexists; eexists; split; [reflexivity | reflexivity]).
  simpl in Hp. unfold encode, encode_number.
  destruct (num_class x) eqn:Hc; try discriminate.
  destruct (num_str_head x Hc) as (c & t & -> & Hhead).
  exists c, t; split; [reflexivity|].
  unfold value_start. destruct Hhead as [-> | ->]; [|reflexivity].
  reflexivity.
Qed.

Lemma skip_ws_encode (level : nat) (o : json) (t : text) :
  plain_json o = true -> skip_ws (encode level o ++ t) = encode level o ++ t.
Proof.
  intros Hp. destruct (encode_head level o Hp) as (c & r & -> & Hc).
  apply skip_ws_start. apply (value_start_facts c Hc).
Qed.

Lemma array_loop_encode (level : nat) (others : list json) :
  forall (first : json) (values : list json) (fuel : nat) (rest : text),
    Forall decodes (first :: others) ->
    forallb plain_json (first :: others) = true ->
    (items_weight (first :: others) <= fuel)%nat ->
    array_loop fuel values
      (encode (S level) first ++ flat_map (item_text level) others
         ++ newline_indent level ++ 93 :: rest)
    = Some (JArr (values ++ first :: others), rest).
Proof.
  induction others as [|v vs IH]; intros first values fuel rest Hdec Hp Hw;
    inversion Hdec as [|? ? Hfirst Hrest]; subst;
    cbn [forallb] in Hp; apply andb_true_iff in Hp as [Hp1 Hp2];
    cbn [items_weight fold_right] in Hw;
    (destruct fuel as [|f]; [lia|]); rewrite array_loop_step.
  - cbn [flat_map app].
    rewrite (Hfirst (S level)); [|exact Hp1|reflexivity|lia].
    rewrite skip_ws_newline_indent. reflexivity.
  - cbn [flat_map]. unfold item_text at 1. rewrite <- !app_assoc.
    rewrite (Hfirst (S level)); [|exact Hp1|reflexivity|fold (items_weight vs) in Hw; lia].
    cbn [app skip_ws is_ws N.eqb Pos.eqb orb].
    rewrite skip_ws_newline_indent, skip_ws_encode
      by (cbn [forallb] in Hp2; apply andb_true_iff in Hp2; tauto).
    rewrite (IH v (values ++ [first]) f rest); [| exact Hrest | exact Hp2 | ].
    + rewrite <- app_assoc. reflexivity.
    + cbn [items_weight fold_right]. lia.
Qed.

Lemma distinct_NoDup (ks : list text) : distinct ks = true <-> NoDup ks.
Proof.
  induction ks as [|k ks IH]; simpl.
  - split; [constructor | reflexivity].
  - rewrite andb_true_iff, negb_true_iff, IH. split.
    + intros [Hk Hks]. constructor; [|exact Hks].
      intros Hin. apply not_true_iff_false in Hk. apply Hk.
      apply existsb_exists. exists k; split; [exact Hin | apply text_eqb_refl].
    + intros H; inversion H as [|? ? Hk Hks]; subst. split; [|exact Hks].
      apply not_true_iff_false. intros Hex.
      apply existsb_exists in Hex as (k' & Hin & E).
      apply text_eqb_eq in E; subst; contradiction.
Qed.

Lemma dict_set_fresh {V : Type} (k : text) (v : V) (d : list (text * V)) :
  ~ In k (keys d) -> dict_set k v d = d ++ [(k, v)].
Proof.
  induction d as [|[k' v'] d IH]; simpl; intros Hk; [reflexivity|].
  destruct (text_eqb k k') eqn:E.
  - apply text_eqb_eq in E; subst; tauto.
  - rewrite IH by tauto. reflexivity.
Qed.

Lemma object_loop_encode (level : nat) (others : list (text * json)) :
  forall (k : text) (v : json) (pairs : list (text * json)) (fuel : nat)
         (rest : text),
    Forall (fun kv => decodes (snd kv)) ((k, v) :: others) ->
    forallb plain_member ((k, v) :: others) = true ->
    NoDup (keys pairs ++ k :: keys others) ->
    (fields_weight ((k, v) :: others) <= fuel)%nat ->
    object_loop fuel pairs
      (k ++ 34 :: 58 :: 32 :: encode (S level) v
         ++ flat_map (member_text level) others
         ++ newline_indent level ++ 125 :: rest)
    = Some (JObj (pairs ++ (k, v) :: others), rest).
Proof.
  induction others as [|[k2 v2] os IH]; intros k v pairs fuel rest Hdec Hp Hnd Hw;
    inversion Hdec as [|? ? Hfirst Hrest]; subst; cbn [snd] in Hfirst;
    cbn [forallb] in Hp; apply andb_true_iff in Hp as [Hp1 Hp2];
    unfold plain_member in Hp1; cbn [fst snd] in Hp1;
    apply andb_true_iff in Hp1 as [Hk Hv];
    cbn [fields_weight fold_right snd] in Hw;
    (destruct fuel as [|f]; [lia|]); rewrite object_loop_step;
    rewrite (scanstring_plain k _ Hk);
    cbn [skip_ws is_ws N.eqb Pos.eqb orb];
    rewrite (skip_ws_encode _ _ _ Hv);
    pose proof (NoDup_remove_2 _ _ _ Hnd) as Hfresh;
    assert (Hk' : ~ In k (keys pairs)) by (intros ?; apply Hfresh, in_or_app; tauto).
  - cbn [flat_map app].
    rewrite (Hfirst (S level)); [|exact Hv|reflexivity|lia].
    rewrite skip_ws_newline_indent, (dict_set_fresh k v pairs Hk'). reflexivity.
  - cbn [flat_map]. unfold member_text at 1. cbn [fst snd].
    cbn [forallb] in Hp2. pose proof Hp2 as Hp2'.
    apply andb_true_iff in Hp2' as [Hm2 _].
    unfold plain_member in Hm2; cbn [fst snd] in Hm2.
    apply andb_true_iff in Hm2 as [Hk2 Hv2].
    rewrite (encode_plain_string k2 Hk2). rewrite <- !app_assoc.
    rewrite (Hfirst (S level)); [|exact Hv|reflexivity|lia].
    cbn [app skip_ws is_ws N.eqb Pos.eqb orb].
    rewrite skip_ws_newline_indent, (dict_set_fresh k v pairs Hk').
    cbn [app skip_ws is_ws N.eqb Pos.eqb orb].
    rewrite <- app_assoc. cbn [app].
    rewrite (IH k2 v2 (pairs ++ [(k, v)]) f rest); [| exact Hrest | exact Hp2 | | ].
    + rewrite <- app_assoc. reflexivity.
    + unfold keys in *. rewrite map_app, <- app_assoc. exact Hnd.
    + cbn [fields_weight fold_right snd]. lia.
Qed.

Lemma scan_once_array_items (f : nat) (r s : text) :
  skip_ws r = s ->
  (exists c t, s = c :: t /\ value_start c = true) ->
  scan_once (S f) (91 :: r) = array_loop f [] s.
Proof.
  intros E (c & t & -> & Hc). rewrite scan_once_array, E.
  destruct (value_start_facts c Hc) as (_ & -> & _). reflexivity.
Qed.

Lemma scan_once_object_members (f : nat) (r r1 : text) :
  skip_ws r = 34 :: r1 ->
  scan_once (S f) (123 :: r) = object_loop f [] r1.
Proof. intros E. rewrite scan_once_object, E. reflexivity. Qed.

(** Decoding what the encoder wrote gives the document back. *)
Lemma scan_once_encode (o : json) : decodes o.
Proof.
  induction o as [ | b | x | s | items IH | fields IH] using json_nested_ind;
    intros level rest fuel Hp Hstop Hw;
    (destruct fuel as [|f]; [simpl in Hw; lia|]).
  - reflexivity.
  - destruct b; reflexivity.
  - simpl in Hp. cbn [encode]. unfold encode_number.
    destruct (num_class x) eqn:Hc; try discriminate.
    destruct (num_str_head x Hc) as (c & t & E & Hhead).
    rewrite E. cbn [app]. rewrite (scan_once_number f c _ Hhead).
    change (c :: t ++ rest) with ((c :: t) ++ rest). rewrite <- E.
    rewrite (scan_number_str x rest Hc Hstop). reflexivity.
  - simpl in Hp. cbn [encode]. rewrite (encode_plain_string s Hp).
    cbn [app]. rewrite scan_once_string, <- app_assoc.
    cbn [app]. rewrite (scanstring_plain s rest Hp). reflexivity.
  - destruct items as [|first others]; [reflexivity|].
    cbn [plain_json] in Hp. cbn [weight] in Hw.
    cbn [encode]. rewrite <- !app_assoc. cbn [app].
    assert (Hp1 : plain_json first = true)
      by (cbn [forallb] in Hp; apply andb_true_iff in Hp; tauto).
    destruct (encode_head (S level) first Hp1) as (c & t & E & Hc).
    erewrite scan_once_array_items;
      [ | rewrite skip_ws_newline_indent; apply skip_ws_encode; exact Hp1
        | rewrite E; eexists; eexists; split; [reflexivity | exact Hc] ].
    apply (array_loop_encode level others first [] f rest IH Hp).
    unfold items_weight. lia.
  - destruct fields as [|[k first] others]; [reflexivity|].
    cbn [plain_json] in Hp. apply andb_true_iff in Hp as [Hnd Hp].
    cbn [weight] in Hw.
    assert (Hk : plain k = true).
    { cbn [forallb fst] in Hp. apply andb_true_iff in Hp as [Hp _].
      apply andb_true_iff in Hp; tauto. }
    cbn [encode]. rewrite (encode_plain_string k Hk).
    rewrite <- !app_assoc. cbn [app].
    erewrite scan_once_object_members;
      [ | rewrite skip_ws_newline_indent; reflexivity ].
    rewrite <- app_assoc. cbn [app].
    apply (object_loop_encode level others k first [] f rest IH Hp).
    + apply distinct_NoDup. exact Hnd.
    + unfold fields_weight. lia.
Qed.

(** The fuel [json_loads] starts with is enough for what the encoder
    writes. *)
Lemma weight_le_length (o : json) :
  forall level, plain_json o = true ->
  (weight o <= List.length (encode level o))%nat.
Proof.
  induction o as [ | b | x | s | items IH | fields IH] using json_nested_ind;
    intros level Hp.
  - simpl; lia.
  - destruct b; simpl; lia.
  - destruct (encode_head level (JNum x) Hp) as (c & t & -> & _). simpl; lia.
  - cbn [encode weight]. unfold encode_basestring_ascii. simpl.
    rewrite length_app; simpl; lia.
  - destruct items as [|first others]; [simpl; lia|].
    cbn [plain_json] in Hp. cbn [encode weight].
    rewrite !length_app. cbn [List.length].
    assert (H : (fold_right (fun v n => S (weight v + n)) O (first :: others)
                 <= S (List.length (encode (S level) first)
                       + List.length (flat_map (item_text level) others)))%nat).
    { clear - IH Hp. inversion IH as [|? ? Hfirst Hothers]; subst.
      cbn [forallb] in Hp. apply andb_true_iff in Hp as [Hp1 Hp2].
      cbn [fold_right]. specialize (Hfirst (S level) Hp1).
      assert (Ho : (fold_right (fun v n => S (weight v + n)) O others
                    <= List.length (flat_map (item_text level) others))%nat).
      { clear - Hothers Hp2.
        induction others as [|v vs IHvs]; [simpl; lia|].
        inversion Hothers as [|? ? Hv Hvs]; subst.
        cbn [forallb] in Hp2. apply andb_true_iff in Hp2 as [Hpv Hpvs].
        cbn [fold_right flat_map]. rewrite length_app.
        specialize (IHvs Hpvs Hvs). specialize (Hv (S level) Hpv).
        unfold item_text at 1. rewrite !length_app. cbn [List.length]. lia. }
      lia. }
    change (fun v : json => [44] ++ newline_indent (S level) ++ encode (S level) v)
      with (item_text level).
    lia.
  - destruct fields as [|[k first] others]; [simpl; lia|].
    cbn [plain_json] in Hp. apply andb_true_iff in Hp as [_ Hp].
    cbn [encode weight].
    rewrite !length_app. cbn [List.length].
    assert (H : (fold_right (fun kv n => S (weight (snd kv) + n)) O
                   ((k, first) :: others)
                 <= S (List.length (encode (S level) first)
                       + List.length (flat_map (member_text level) others)))%nat).
    { clear - IH Hp. inversion IH as [|? ? Hfirst Hothers]; subst.
      cbn [forallb fst snd] in Hp. apply andb_true_iff in Hp as [Hp1 Hp2].
      apply andb_true_iff in Hp1 as [_ Hp1].
      cbn [fold_right snd]. cbn [snd] in Hfirst. specialize (Hfirst (S level) Hp1).
      assert (Ho : (fold_right (fun kv n => S (weight (snd kv) + n)) O others
                    <= List.length (flat_map (member_text level) others))%nat).
      { clear - Hothers Hp2.
        induction others as [|[k v] vs IHvs]; [simpl; lia|].
        inversion Hothers as [|? ? Hv Hvs]; subst.
        cbn [forallb fst snd] in Hp2. apply andb_true_iff in Hp2 as [Hpv Hpvs].
        apply andb_true_iff in Hpv as [_ Hpv].
        cbn [fold_right flat_map snd]. rewrite length_app.
        specialize (IHvs Hpvs Hvs). cbn [snd] in Hv. specialize (Hv (S level) Hpv).
        unfold member_text at 1. rewrite !length_app. cbn [List.length snd]. lia. }
      lia. }
    change (fun kv : text * json =>
              [44] ++ newline_indent (S level) ++ encode_basestring_ascii (fst kv)
                ++ [58; 32] ++ encode (S level) (snd kv))
      with (member_text level).
    lia.
Qed.

(** Loading what was dumped gives the document back. *)
Lemma json_loads_dumps (o : json) :
  plain_json o = true -> json_loads (json_dumps o) = Some o.
Proof.
  intros Hp. unfold json_loads, json_dumps.
  rewrite <- (app_nil_r (encode 0%nat o)) at 2.
  rewrite (skip_ws_encode 0%nat o [] Hp).
  rewrite (scan_once_encode o 0%nat [] _ Hp eq_refl).
  - reflexivity.
  - pose proof (weight_le_length o 0%nat Hp). lia.
Qed.

(** *** The fuel of the decoder

    More fuel than twice the length of the text never changes what the
    decoder returns: [None] from [json_loads] is a decoding error, not a
    lack of fuel.  Of the numbers this uses that what follows a scanned
    number is no longer than the text scanned. *)

Hypothesis scan_number_shrinks :
  forall (s : text) (x : num) (rest : text),
  scan_number s = Some (x, rest) -> (List.length rest <= List.length s)%nat.

Lemma skip_ws_length (s : text) : (List.length (skip_ws s) <= List.length s)%nat.
Proof.
  induction s as [|c s IH]; simpl; [lia|].
  destruct (is_ws c); simpl; lia.
Qed.

Lemma skip_ws_cons (s : text) (c : N) (r : text) :
  skip_ws s = c :: r -> (S (List.length r) <= List.length s)%nat.
Proof.
  intros H. pose proof (skip_ws_length s) as L. rewrite H in L. exact L.
Qed.

Lemma strip_prefix_length (p s r : text) :
  strip_prefix p s = Some r -> (List.length r <= List.length s)%nat.
Proof.
  revert s; induction p as [|x p IH]; intros [|y s]; simpl; try discriminate.
  - intros H; injection H as <-; simpl; lia.
  - intros H; injection H as <-; simpl; lia.
  - destruct (x =? y); [|discriminate]. intros H. apply IH in H. lia.
Qed.

Lemma literal_length (word : string) (v v' : json) (s r : text) :
  literal word v s = Some (v', r) -> (List.length r <= List.length s)%nat.
Proof.
  unfold literal. destruct (strip_prefix (str word) s) as [rest|] eqn:E;
    [|discriminate].
  intros H; injection H as _ <-. eapply strip_prefix_length; exact E.
Qed.

Lemma decode_uXXXX_length (s : text) (u : N) (r : text) :
  decode_uXXXX s = Some (u, r) -> (List.length r < List.length s)%nat.
Proof.
  unfold decode_uXXXX. destruct s as [|a [|b [|c [|d t]]]]; try discriminate.
  destruct (hex_value a), (hex_value b), (hex_value c), (hex_value d);
    try discriminate.
  intros H; injection H as _ <-. simpl; lia.
Qed.

Lemma prepend_Some (c : N) (x : option (text * text)) (t r : text) :
  prepend c x = Some (t, r) -> exists t', x = Some (t', r).
Proof.
  destruct x as [[t' r']|]; simpl; [|discriminate].
  intros H; injection H as _ <-. exists t'; reflexivity.
Qed.

Lemma scanstring_from_length (f : nat) :
  forall (s t r : text),
    scanstring_from f s = Some (t, r) -> (List.length r < List.length s)%nat.
Proof.
  induction f as [|f IH]; intros s t r H; [discriminate|].
  cbn [scanstring_from] in H. destruct s as [|c r0]; [discriminate|].
  cbn [List.length].
  destruct (c =? 34); [injection H as _ <-; lia|].
  destruct (c =? 92).
  - destruct r0 as [|e r1]; [discriminate|]. cbn [List.length].
    destruct (e =? 117).
    + destruct (decode_uXXXX r1) as [[u r2]|] eqn:D; [|discriminate].
      apply decode_uXXXX_length in D.
      assert (Hplain : forall t0, prepend u (scanstring_from f r2) = Some (t0, r) ->
                                  (List.length r < S (S (List.length r1)))%nat).
      { intros t0 H0. apply prepend_Some in H0 as (t' & H0).
        apply IH in H0. lia. }
      destruct (is_high_surrogate u); [|eapply Hplain; exact H].
      destruct (strip_prefix [92; 117] r2) as [r3|] eqn:P;
        [|eapply Hplain; exact H].
      apply strip_prefix_length in P.
      destruct (decode_uXXXX r3) as [[u2 r4]|] eqn:D2; [|discriminate].
      apply decode_uXXXX_length in D2.
      destruct (is_low_surrogate u2); [|eapply Hplain; exact H].
      apply prepend_Some in H as (t' & H). apply IH in H. lia.
    + destruct (backslash_escape e); [|discriminate].
      apply prepend_Some in H as (t' & H). apply IH in H. lia.
  - destruct (c <? 32); [discriminate|].
    apply prepend_Some in H as (t' & H). apply IH in H. lia.
Qed.

Lemma scanstring_length (s t r : text) :
  scanstring s = Some (t, r) -> (List.length r < List.length s)%nat.
Proof. apply scanstring_from_length. Qed.

Lemma or_else_Some {A : Type} (a b : option A) (x : A) :
  or_else a b = Some x -> a = Some x \/ b = Some x.
Proof. destruct a; simpl; auto. Qed.

Lemma scan_value_shrinks
    (object_members : list (text * json) -> text -> decoded)
    (array_items : list json -> text -> decoded) :
  shrinks object_members -> shrinks array_items ->
  shrinks (fun _ : unit => scan_value object_members array_items).
Proof.
  intros Ho Ha _ s v r H. unfold scan_value in H.
  destruct s as [|c r0]; [discriminate|]. cbn [List.length].
  destruct (c =? 34).
  { destruct (scanstring r0) as [[t rest]|] eqn:E; [|discriminate].
    injection H as _ <-. apply scanstring_length in E. lia. }
  destruct (c =? 123).
  { destruct (skip_ws r0) as [|c1 r1] eqn:W; [discriminate|].
    apply skip_ws_cons in W.
    destruct (c1 =? 125); [injection H as _ <-; lia|].
    destruct (c1 =? 34); [|discriminate]. apply Ho in H. lia. }
  destruct (c =? 91).
  { destruct (skip_ws r0) as [|c1 r1] eqn:W; [discriminate|].
    apply skip_ws_cons in W.
    destruct (c1 =? 93); [injection H as _ <-; lia|].
    apply Ha in H. cbn [List.length] in H. lia. }
  change (S (List.length r0)) with (List.length (c :: r0)).
  repeat (apply or_else_Some in H as [H | H];
          [eapply literal_length; exact H|]).
  destruct (scan_number (c :: r0)) as [[x rest]|] eqn:E.
  - injection H as _ <-. eapply scan_number_shrinks; exact E.
  - repeat (apply or_else_Some in H as [H | H];
            [eapply literal_length; exact H|]).
    eapply literal_length; exact H.
Qed.

Lemma object_member_shrinks
    (value_at : text -> decoded)
    (object_members : list (text * json) -> text -> decoded) :
  shrinks (fun _ : unit => value_at) -> shrinks object_members ->
  shrinks (object_member value_at object_members).
Proof.
  intros Hv Ho pairs s v r H. unfold object_member in H.
  destruct (scanstring s) as [[key s1]|] eqn:E; [|discriminate].
  apply scanstring_length in E.
  destruct (skip_ws s1) as [|c s2] eqn:W1; [discriminate|].
  apply skip_ws_cons in W1.
  destruct (c =? 58); [|discriminate].
  destruct (value_at (skip_ws s2)) as [[value s3]|] eqn:V; [|discriminate].
  apply (Hv tt) in V. pose proof (skip_ws_length s2).
  destruct (skip_ws s3) as [|c' s4] eqn:W3; [discriminate|].
  apply skip_ws_cons in W3.
  destruct (c' =? 125); [injection H as _ <-; lia|].
  destruct (c' =? 44); [|discriminate].
  destruct (skip_ws s4) as [|q s5] eqn:W4; [discriminate|].
  apply skip_ws_cons in W4.
  destruct (q =? 34); [|discriminate]. apply Ho in H. lia.
Qed.

Lemma array_item_shrinks
    (value_at : text -> decoded) (array_items : list json -> text -> decoded) :
  shrinks (fun _ : unit => value_at) -> shrinks array_items ->
  shrinks (array_item value_at array_items).
Proof.
  intros Hv Ha values s v r H. unfold array_item in H.
  destruct (value_at s) as [[value s1]|] eqn:V; [|discriminate].
  apply (Hv tt) in V.
  destruct (skip_ws s1) as [|c s2] eqn:W; [discriminate|].
  apply skip_ws_cons in W.
  destruct (c =? 93); [injection H as _ <-; lia|].
  destruct (c =? 44); [|discriminate].
  apply Ha in H. pose proof (skip_ws_length s2). lia.
Qed.

Lemma decoder_shrinks (f : nat) :
  shrinks (fun _ : unit => scan_once f)
  /\ shrinks (object_loop f) /\ shrinks (array_loop f).
Proof.
  induction f as [|f (IHs & IHo & IHa)].
  - repeat split; intros a s v r H; discriminate H.
  - repeat split.
    + exact (scan_value_shrinks _ _ IHo IHa).
    + exact (object_member_shrinks _ _ IHs IHo).
    + exact (array_item_shrinks _ _ IHs IHa).
Qed.

Lemma scan_value_ext
    (o1 o2 : list (text * json) -> text -> decoded)
    (a1 a2 : list json -> text -> decoded) (s : text) :
  (forall pairs t, (S (S (List.length t)) <= List.length s)%nat ->
                   o1 pairs t = o2 pairs t) ->
  (forall values t, (List.length t < List.length s)%nat ->
                    a1 values t = a2 values t) ->
  scan_value o1 a1 s = scan_value o2 a2 s.
Proof.
  intros Ho Ha. unfold scan_value.
  destruct s as [|c r0]; [reflexivity|]. cbn [List.length] in *.
  destruct (c =? 34); [reflexivity|].
  destruct (c =? 123).
  { destruct (skip_ws r0) as [|c1 r1] eqn:W; [reflexivity|].
    apply skip_ws_cons in W.
    destruct (c1 =? 125); [reflexivity|].
    destruct (c1 =? 34); [|reflexivity]. apply Ho. lia. }
  destruct (c =? 91); [|reflexivity].
  pose proof (skip_ws_length r0) as L.
  destruct (skip_ws r0) as [|c1 r1] eqn:W; [reflexivity|].
  destruct (c1 =? 93); [reflexivity|]. apply Ha. lia.
Qed.

Lemma object_member_ext
    (v1 v2 : text -> decoded)
    (o1 o2 : list (text * json) -> text -> decoded)
    (pairs : list (text * json)) (s : text) :
  (forall t, (S (S (List.length t)) <= List.length s)%nat -> v1 t = v2 t) ->
  shrinks (fun _ : unit => v1) ->
  (forall pairs' t, (List.length t + 4 <= List.length s)%nat ->
                    o1 pairs' t = o2 pairs' t) ->
  object_member v1 o1 pairs s = object_member v2 o2 pairs s.
Proof.
  intros Hv Hs Ho. unfold object_member.
  destruct (scanstring s) as [[key s1]|] eqn:E; [|reflexivity].
  apply scanstring_length in E.
  destruct (skip_ws s1) as [|c s2] eqn:W1; [reflexivity|].
  apply skip_ws_cons in W1.
  destruct (c =? 58); [|reflexivity].
  pose proof (skip_ws_length s2) as L2.
  rewrite <- (Hv (skip_ws s2)) by lia.
  destruct (v1 (skip_ws s2)) as [[value s3]|] eqn:V; [|reflexivity].
  apply (Hs tt) in V.
  destruct (skip_ws s3) as [|c' s4] eqn:W3; [reflexivity|].
  apply skip_ws_cons in W3.
  destruct (c' =? 125); [reflexivity|].
  destruct (c' =? 44); [|reflexivity].
  destruct (skip_ws s4) as [|q s5] eqn:W4; [reflexivity|].
  apply skip_ws_cons in W4.
  destruct (q =? 34); [|reflexivity]. apply Ho. lia.
Qed.

Lemma array_item_ext
    (v1 v2 : text -> decoded) (a1 a2 : list json -> text -> decoded)
    (values : list json) (s : text) :
  v1 s = v2 s ->
  shrinks (fun _ : unit => v1) ->
  (forall values' t, (List.length t < List.length s)%nat ->
                     a1 values' t = a2 values' t) ->
  array_item v1 a1 values s = array_item v2 a2 values s.
Proof.
  intros Hv Hs Ha. unfold array_item. rewrite <- Hv.
  destruct (v1 s) as [[value s1]|] eqn:V; [|reflexivity].
  apply (Hs tt) in V.
  destruct (skip_ws s1) as [|c s2] eqn:W; [reflexivity|].
  apply skip_ws_cons in W.
  destruct (c =? 93); [reflexivity|].
  destruct (c =? 44); [|reflexivity].
  apply Ha. pose proof (skip_ws_length s2). lia.
Qed.

(** One more unit of fuel changes nothing once there is twice the length
    of the text. *)
Lemma decoder_fuel_step (f : nat) :
  (forall s, (2 * List.length s + 1 <= f)%nat ->
             scan_once (S f) s = scan_once f s)
  /\ (forall pairs s, (2 * List.length s + 2 <= f)%nat ->
                      object_loop (S f) pairs s = object_loop f pairs s)
  /\ (forall values s, (2 * List.length s + 2 <= f)%nat ->
                       array_loop (S f) values s = array_loop f values s).
Proof.
  induction f as [|g (IHs & IHo & IHa)].
  - repeat split; intros; lia.
  - destruct (decoder_shrinks (S g)) as (Hs & _ & _).
    repeat split.
    + intros s Hb.
      change (scan_value (object_loop (S g)) (array_loop (S g)) s
              = scan_value (object_loop g) (array_loop g) s).
      apply scan_value_ext.
      * intros pairs t Ht. apply IHo. lia.
      * intros values t Ht. apply IHa. lia.
    + intros pairs s Hb.
      change (object_member (scan_once (S g)) (object_loop (S g)) pairs s
              = object_member (scan_once g) (object_loop g) pairs s).
      apply object_member_ext.
      * intros t Ht. apply IHs. lia.
      * exact Hs.
      * intros pairs' t Ht. apply IHo. lia.
    + intros values s Hb.
      change (array_item (scan_once (S g)) (array_loop (S g)) values s
              = array_item (scan_once g) (array_loop g) values s).
      apply array_item_ext.
      * apply IHs. lia.
      * exact Hs.
      * intros values' t Ht. apply IHa. lia.
Qed.

Lemma scan_once_fuel (s : text) (f extra : nat) :
  (2 * List.length s + 1 <= f)%nat ->
  scan_once (extra + f) s = scan_once f s.
Proof.
  intros Hb. induction extra as [|extra IH]; [reflexivity|].
  cbn [Nat.add]. rewrite <- IH.
  apply (decoder_fuel_step (extra + f)). lia.
Qed.

(** The fuel [json_loads] starts with is enough for every text: any larger
    amount gives the same result. *)
Lemma json_loads_fuel (s : text) (f : nat) :
  (2 * List.length s + 2 <= f)%nat ->
  scan_once f (skip_ws s) = scan_once (2 * List.length s + 2) (skip_ws s).
Proof.
  intros Hb.
  replace f with ((f - (2 * List.length s + 2)) + (2 * List.length s + 2))%nat
    by lia.
  apply scan_once_fuel. pose proof (skip_ws_length s). lia.
Qed.

(** *** Saving and loading a Dataset *)

Lemma plain_digit (n : N) : plain_char (48 + n mod 10) = true.
Proof.
  pose proof (N.mod_upper_bound n 10 ltac:(lia)) as H.
  revert H. generalize (n mod 10). intros d H.
  unfold plain_char.
  rewrite !andb_true_iff, !negb_true_iff, !N.leb_le, !N.eqb_neq. lia.
Qed.

Lemma plain_strftime_Ymd (now : date) : plain (strftime_Ymd now) = true.
Proof.
  unfold strftime_Ymd, four_digits, two_digits, plain.
  cbn [app forallb]. rewrite !plain_digit. reflexivity.
Qed.

Lemma plain_json_record (r : consumption_record) :
  plain_record r = true -> plain_json (record_json r) = true.
Proof.
  unfold plain_record, finite. intros H. apply andb_true_iff in H as [Hd Hx].
  unfold record_json. cbn [plain_json keys map fst snd forallb].
  rewrite Hd. destruct (num_class (rec_amount r)); try discriminate.
  reflexivity.
Qed.

Lemma plain_json_dataset (ds : dataset) :
  plain_dataset ds = true -> plain_json (dataset_json ds) = true.
Proof.
  unfold plain_dataset, dataset_json. intros H.
  apply andb_true_iff in H as [Hk Hc]. cbn [plain_json].
  apply andb_true_iff; split.
  - unfold keys in *. rewrite map_map. exact Hk.
  - clear Hk. induction ds as [|[k rs] ds IH]; [reflexivity|].
    cbn [forallb map category_json fst snd plain_json] in *.
    apply andb_true_iff in Hc as [Hc Hds].
    unfold plain_category in Hc; cbn [fst snd] in Hc.
    apply andb_true_iff in Hc as [Hk Hrs].
    rewrite Hk, (IH Hds), andb_true_r. cbn [andb].
    clear - Hrs. induction rs as [|r rs IH]; [reflexivity|].
    cbn [forallb map] in *. apply andb_true_iff in Hrs as [Hr Hrs].
    rewrite (plain_json_record r Hr), (IH Hrs). reflexivity.
Qed.

Lemma plain_append_record (category : text) (r : consumption_record)
    (ds : dataset) :
  plain_dataset ds = true -> plain_record r = true ->
  plain_dataset (append_record category r ds) = true.
Proof.
  unfold plain_dataset. intros H Hr. apply andb_true_iff in H as [Hk Hc].
  rewrite keys_append_record, Hk. cbn [andb].
  unfold append_record. destruct (dict_get category ds) as [rs|] eqn:E;
    [|exact Hc].
  clear Hk. induction ds as [|[k rs0] ds IH]; [discriminate|].
  cbn [dict_get] in E. cbn [dict_set]. cbn [forallb] in Hc.
  apply andb_true_iff in Hc as [Hc Hds].
  destruct (text_eqb category k); cbn [forallb].
  - injection E as ->. rewrite Hds, andb_true_r.
    unfold plain_category in *; cbn [fst snd] in *.
    apply andb_true_iff in Hc as [Hk Hrs].
    rewrite Hk, forallb_app, Hrs. cbn [forallb andb]. rewrite Hr. reflexivity.
  - rewrite Hc, (IH Hds E). reflexivity.
Qed.

Lemma plain_apply_calls (calls : list (date * text * num)) (ds : dataset) :
  Forall (fun call => num_class (snd call) = Finite) calls ->
  plain_dataset ds = true -> plain_dataset (apply_calls calls ds) = true.
Proof.
  intros Hfin. revert ds.
  induction Hfin as [|[[now c] a] calls Ha _ IH]; intros ds Hds; simpl.
  - exact Hds.
  - apply IH. apply plain_append_record; [exact Hds|].
    unfold plain_record, finite; cbn [rec_date rec_amount].
    cbn [snd] in Ha. rewrite plain_strftime_Ymd, Ha. reflexivity.
Qed.

Lemma load_data_after_dump (fresh : state) (o : json) :
  plain_json o = true -> file fresh = Some (json_dumps o) ->
  exists s', load_data fresh = Returns s' /\ data s' = o.
Proof.
  intros Hp Hf. unfold load_data. rewrite Hf, (json_loads_dumps o Hp).
  eexists; split; reflexivity.
Qed.

(** C1: take the empty three-category dictionary, apply any sequence of
    [log_consumption] calls with finite amounts, and save with a write that
    succeeds.  A store constructed afterwards over that file, and equally a
    [load_data] call on any store over that file, ends with the very data
    that were saved: the same keys in the same order, each with the same
    records in the same order, with the same dates and amounts. *)
Theorem save_then_load (calls : list (date * text * num)) (s : state) :
  data s = empty_data ->
  Forall (fun call => num_class (snd call) = Finite) calls ->
  hd WriteOk (io s) = WriteOk ->
  exists s1 s2,
    log_all calls s = Returns s1
    /\ data s1 = dataset_json (apply_calls calls empty_dataset)
    /\ save_data s1 = Returns s2
    /\ data s2 = data s1
    /\ forall fresh, file fresh = file s2 ->
         (exists s3, __init__ fresh = Returns s3 /\ data s3 = data s1)
         /\ (exists s3, load_data fresh = Returns s3 /\ data s3 = data s1).
Proof.
  intros Hd Hfin Hio. rewrite <- dataset_json_empty in Hd.
  destruct (log_all_dataset calls s _ Hd) as (s1 & Hrun & Hd1 & _ & Hio1).
  assert (Hp : plain_json (data s1) = true).
  { rewrite Hd1. apply plain_json_dataset, plain_apply_calls; [exact Hfin|].
    reflexivity. }
  assert (Hsave : exists s2, save_data s1 = Returns s2 /\ data s2 = data s1
                             /\ file s2 = Some (json_dumps (data s1))).
  { unfold save_data, next_write. rewrite Hio1.
    destruct (io s) as [|answer rest]; [eexists; repeat split|].
    simpl in Hio; subst answer. eexists; repeat split. }
  destruct Hsave as (s2 & Hsave & Hd2 & Hf2).
  exists s1, s2. repeat split; try assumption.
  - unfold __init__. apply load_data_after_dump; [exact Hp|].
    cbn [file set_data]. congruence.
  - apply load_data_after_dump; [exact Hp | congruence].
Qed.

(** *** More on [generate_report] *)

Lemma report_category_prints (category : text) (records : json) (s : state) :
  exists lines,
    state_of (report_category category records s)
    = mkState (data s) (file s) (stdout s ++ lines) (io s).
Proof.
  unfold report_category.
  destruct (iterate records);
    [|exists []; rewrite app_nil_r; destruct s; reflexivity].
  destruct (sum_amounts _ _) as [e|total];
    [exists []; rewrite app_nil_r; destruct s; reflexivity|].
  rewrite provide_recommendations_line.
  exists [total_line category total; recommendation_line category total].
  cbn [state_of]. unfold print. cbn [data file stdout io].
  rewrite <- app_assoc. reflexivity.
Qed.

Lemma report_loop_prints (items : list (text * json)) (s : state) :
  exists lines,
    state_of (report_loop items s)
    = mkState (data s) (file s) (stdout s ++ lines) (io s).
Proof.
  revert s; induction items as [|[k v] items IH]; intros s; cbn [report_loop].
  - exists []. rewrite app_nil_r. destruct s; reflexivity.
  - destruct (report_category_prints k v s) as (l1 & H1).
    destruct (report_category k v s) as [s1|e s1]; cbn [state_of] in *.
    + destruct (IH s1) as (l2 & H2). exists (l1 ++ l2).
      rewrite H2, H1. cbn [data file stdout io]. rewrite app_assoc. reflexivity.
    + exists l1. exact H1.
Qed.

Lemma generate_report_prints (s : state) :
  exists lines,
    state_of (generate_report s)
    = mkState (data s) (file s) (stdout s ++ report_header :: lines) (io s).
Proof.
  unfold generate_report. cbv zeta.
  set (s1 := print _ s).
  destruct (data s1) as [ | b | x | t | items | fields] eqn:E;
    try (exists []; reflexivity).
  destruct (report_loop_prints fields s1) as (lines & H).
  exists lines. rewrite H. unfold s1, print; cbn [data file stdout io].
  rewrite <- app_assoc. reflexivity.
Qed.

(** Whether it returns or raises, [generate_report] changes neither the
    data nor the file nor the pending writes, and what was printed before is
    still there, followed by the header and the lines of the report. *)
Theorem generate_report_only_prints (s : state) :
  exists lines,
    state_of (generate_report s)
    = mkState (data s) (file s) (stdout s ++ report_header :: lines) (io s).
Proof. apply generate_report_prints. Qed.





(** *** Saving and loading any plain document *)

(** Whatever plain document the store holds (categories outside the three
    and fields beyond date and amount included), a successful [save_data]
    followed by [load_data] on any store over that file gives the same
    document, and saving again writes the same file. *)
Theorem save_load_plain (s : state) :
  plain_json (data s) = true ->
  hd WriteOk (io s) = WriteOk ->
  exists s1,
    save_data s = Returns s1
    /\ data s1 = data s
    /\ forall fresh, file fresh = file s1 ->
         exists s2,
           load_data fresh = Returns s2
           /\ data s2 = data s
           /\ forall s3, hd WriteOk (io s2) = WriteOk ->
                save_data s2 = Returns s3 -> file s3 = file s1.
Proof.
  intros Hp Hio.
  assert (Hsave : forall s0 : state, hd WriteOk (io s0) = WriteOk ->
             exists s1, save_data s0 = Returns s1 /\ data s1 = data s0
                        /\ file s1 = Some (json_dumps (data s0))).
  { intros s0 H0. unfold save_data, next_write.
    destruct (io s0) as [|answer rest]; [eexists; repeat split|].
    simpl in H0; subst answer. eexists; repeat split. }
  destruct (Hsave s Hio) as (s1 & Hs1 & Hd1 & Hf1).
  exists s1. split; [exact Hs1|]. split; [exact Hd1|].
  intros fresh Hfresh.
  destruct (load_data_after_dump fresh (data s) Hp) as (s2 & Hl & Hd2);
    [congruence|].
  exists s2. split; [exact Hl|]. split; [exact Hd2|].
  intros s3 Hio2 Hs3. destruct (Hsave s2 Hio2) as (s3' & Hs3' & _ & Hf3).
  rewrite Hs3 in Hs3'. injection Hs3' as <-. congruence.
Qed.

(** *** The report after a sequence of calls *)

Lemma append_record_map (category : text) (r : consumption_record)
    (ds : dataset) :
  NoDup (keys ds) ->
  append_record category r ds
  = map (fun entry =>
           (fst entry,
            snd entry ++ if text_eqb category (fst entry) then [r] else []))
      ds.
Proof.
  unfold append_record. induction ds as [|[k rs] ds IH]; intros Hnd;
    [reflexivity|].
  cbn [keys map fst] in Hnd. inversion Hnd as [|? ? Hk Hrest]; subst.
  cbn [dict_get map fst snd].
  destruct (text_eqb category k) eqn:E.
  - apply text_eqb_eq in E; subst k. cbn [dict_set]. rewrite text_eqb_refl.
    f_equal. clear IH Hnd Hrest.
    induction ds as [|[k' rs'] ds IH]; [reflexivity|].
    cbn [map fst snd]. cbn [keys map fst] in Hk.
    replace (text_eqb category k') with false
      by (symmetry; apply text_eqb_neq; intros ->; apply Hk; left; reflexivity).
    rewrite app_nil_r. f_equal. apply IH. intros Hin; apply Hk; right; exact Hin.
  - rewrite app_nil_r. specialize (IH Hrest).
    destruct (dict_get category ds) as [rs0|].
    + cbn [dict_set]. rewrite E. f_equal. exact IH.
    + f_equal. exact IH.
Qed.

Lemma apply_calls_map (calls : list (date * text * num)) :
  forall ds : dataset,
    NoDup (keys ds) ->
    apply_calls calls ds
    = map (fun entry =>
             (fst entry, snd entry ++ records_naming (fst entry) calls))
        ds.
Proof.
  induction calls as [|[[now c] a] calls IH]; intros ds Hnd; cbn [apply_calls].
  - induction ds as [|[k rs] ds IHds]; [reflexivity|].
    cbn [map fst snd]. unfold records_naming at 1. cbn [filter map].
    rewrite app_nil_r. f_equal. apply IHds.
    cbn [keys map] in Hnd. inversion Hnd; assumption.
  - rewrite IH by (rewrite keys_append_record; exact Hnd).
    rewrite (append_record_map _ _ _ Hnd), map_map.
    apply map_ext. intros [k rs]. cbn [fst snd]. f_equal.
    rewrite <- app_assoc. f_equal.
    unfold records_naming. cbn [filter fst snd].
    destruct (text_eqb c k); reflexivity.
Qed.



(** *** The keys of every dictionary are distinct *)













(** *** When the methods raise *)






(** *** What the sequences hold after a sequence of calls *)

(** After any sequence of calls on the empty three-category dictionary,
    each of the three sequences holds exactly the records of the calls that
    named its category, in the order of the calls, each with the date of its
    call and its amount; calls naming anything else leave no trace. *)
Theorem log_all_contents (calls : list (date * text * num)) (s : state) :
  data s = empty_data ->
  exists s',
    log_all calls s = Returns s'
    /\ data s'
       = dataset_json
           (map (fun category => (category, records_naming category calls))
              categories).
Proof.
  intros Hd. rewrite <- dataset_json_empty in Hd.
  destruct (log_all_dataset calls s _ Hd) as (s' & Hrun & Hd' & _ & _).
  exists s'. split; [exact Hrun|]. rewrite Hd'. f_equal.
  rewrite apply_calls_map by (apply distinct_NoDup; reflexivity).
  reflexivity.
Qed.

(** *** The menu loop *)





Section LoopFacts.

Variable float : text -> option num.








End LoopFacts.

End Tracker.

(** ** Integer amounts

    The integer instance has the properties of numbers that the results
    above rely on. *)


Lemma size_nat_bound (p : positive) : N.pos p < 2 ^ N.of_nat (Pos.size_nat p).
Proof.
  induction p as [p IH|p IH|]; cbn [Pos.size_nat];
    rewrite ?Nat2N.inj_succ, ?N.pow_succ_r'; lia.
Qed.

Lemma digits_of_read (f : nat) :
  forall (n : N) (acc rest : text),
    n < 2 ^ N.of_nat f ->
    read_digits (digits_of f n acc ++ rest) 0 = read_digits (acc ++ rest) n.
Proof.
  induction f as [|f IH]; intros n acc rest Hn.
  - simpl in Hn. replace n with 0 by lia. reflexivity.
  - rewrite Nat2N.inj_succ, N.pow_succ_r' in Hn. cbn [digits_of].
    destruct (n <? 10) eqn:E.
    + apply N.ltb_lt in E. cbn [app read_digits].
      rewrite is_digit_offset by lia.
      f_equal. lia.
    + apply N.ltb_ge in E.
      rewrite IH.
      * cbn [app read_digits].
        pose proof (N.mod_upper_bound n 10 ltac:(lia)).
        rewrite is_digit_offset by lia.
        f_equal. pose proof (N.div_mod n 10 ltac:(lia)) as Hdm.
        revert H Hdm. generalize (n mod 10), (n / 10). intros r q H Hdm. lia.
      * apply N.Div0.div_lt_upper_bound. lia.
Qed.

Lemma digits_of_head (f : nat) :
  forall (n : N) (acc : text),
    n < 2 ^ N.of_nat f -> 0 < n ->
    exists c t, digits_of f n acc = c :: t /\ is_digit c = true /\ c <> 48.
Proof.
  induction f as [|f IH]; intros n acc Hn Hpos.
  - simpl in Hn. lia.
  - rewrite Nat2N.inj_succ, N.pow_succ_r' in Hn. cbn [digits_of].
    destruct (n <? 10) eqn:E.
    + apply N.ltb_lt in E. exists (48 + n), acc.
      repeat split; [apply is_digit_offset; lia | lia].
    + apply N.ltb_ge in E. apply IH.
      * apply N.Div0.div_lt_upper_bound. lia.
      * apply N.div_str_pos. lia.
Qed.

Lemma read_digits_stop (rest : text) (n : N) :
  number_stops rest = true -> read_digits rest n = (n, rest).
Proof.
  destruct rest as [|c rest]; [reflexivity|]. simpl.
  intros H. apply orb_true_iff in H as [H | H]; apply N.eqb_eq in H; subst;
    reflexivity.
Qed.

Lemma float_follows_stop (rest : text) :
  number_stops rest = true -> float_follows rest = false.
Proof.
  destruct rest as [|c rest]; [reflexivity|]. simpl.
  intros H. apply orb_true_iff in H as [H | H]; apply N.eqb_eq in H; subst;
    reflexivity.
Qed.

Lemma decimal_of_N_pos (p : positive) (rest : text) :
  number_stops rest = true ->
  exists c t,
    decimal_of_N (N.pos p) = c :: t
    /\ is_digit c = true /\ c <> 48
    /\ read_digits (c :: t ++ rest) 0 = (N.pos p, rest).
Proof.
  intros Hstop. unfold decimal_of_N.
  assert (Hb : N.pos p < 2 ^ N.of_nat (S (N.size_nat (N.pos p)))).
  { rewrite Nat2N.inj_succ, N.pow_succ_r'. pose proof (size_nat_bound p).
    cbn [N.size_nat]. lia. }
  destruct (digits_of_head _ (N.pos p) [] Hb ltac:(lia)) as (c & t & E & Hc & Hz).
  exists c, t. repeat split; try assumption.
  change (c :: t ++ rest) with ((c :: t) ++ rest). rewrite <- E.
  rewrite (digits_of_read _ _ [] rest Hb). apply read_digits_stop; exact Hstop.
Qed.

Lemma intnum_str_head (x : intnum) :
  intnum_class x = Finite ->
  exists c t, intnum_str x = c :: t /\ (is_digit c = true \/ c = 45).
Proof.
  destruct x as [[|p|p]| | |]; try discriminate; intros _.
  - exists 48, []. split; [reflexivity | left; reflexivity].
  - destruct (decimal_of_N_pos p [] eq_refl) as (c & t & E & Hc & _).
    exists c, t. split; [exact E | left; exact Hc].
  - eexists; eexists; split; [reflexivity | right; reflexivity].
Qed.

Lemma int_scan_str (x : intnum) (rest : text) :
  intnum_class x = Finite -> number_stops rest = true ->
  int_scan (intnum_str x ++ rest) = Some (x, rest).
Proof.
  destruct x as [[|p|p]| | |]; try discriminate; intros _ Hstop.
  - change (intnum_str (Int 0) ++ rest) with (48 :: rest).
    unfold int_scan. cbn [N.eqb Pos.eqb].
    rewrite (float_follows_stop rest Hstop). reflexivity.
  - destruct (decimal_of_N_pos p rest Hstop) as (c & t & E & Hc & Hz & Hread).
    cbn [intnum_str int_str Z.to_N]. rewrite E. cbn [app]. unfold int_scan.
    replace (c =? 45) with false
      by (symmetry; apply N.eqb_neq; unfold is_digit in Hc;
          apply andb_true_iff in Hc as [H1 H2]; apply N.leb_le in H1, H2; lia).
    replace (c =? 48) with false by (symmetry; apply N.eqb_neq; exact Hz).
    rewrite Hc, Hread, (float_follows_stop rest Hstop). reflexivity.
  - destruct (decimal_of_N_pos p rest Hstop) as (c & t & E & Hc & Hz & Hread).
    cbn [intnum_str int_str]. rewrite E. cbn [app]. unfold int_scan.
    cbn [N.eqb Pos.eqb].
    replace (c =? 48) with false by (symmetry; apply N.eqb_neq; exact Hz).
    rewrite Hc, Hread, (float_follows_stop rest Hstop). reflexivity.
Qed.

Lemma read_digits_length (s : text) :
  forall acc, (List.length (snd (read_digits s acc)) <= List.length s)%nat.
Proof.
  induction s as [|c s IH]; intros acc; cbn [read_digits]; [simpl; lia|].
  destruct (is_digit c); cbn [snd List.length]; [|lia].
  specialize (IH (10 * acc + (c - 48))). lia.
Qed.

Lemma int_scan_shrinks (s : text) (x : intnum) (rest : text) :
  int_scan s = Some (x, rest) -> (List.length rest <= List.length s)%nat.
Proof.
  unfold int_scan.
  assert (Hbody : forall (neg : bool) (body : text),
             (List.length body <= List.length s)%nat ->
             match body with
             | d :: r =>
                 if d =? 48 then
                   if float_follows r then None else Some (Int 0, r)
                 else if is_digit d then
                   let '(n, rest0) := read_digits body 0 in
                   if float_follows rest0 then None
                   else Some (Int (if neg then Z.opp (Z.of_N n) else Z.of_N n), rest0)
                 else None
             | [] => None
             end = Some (x, rest) ->
             (List.length rest <= List.length s)%nat).
  { intros neg body Hlen H. destruct body as [|d r]; [discriminate|].
    destruct (d =? 48).
    - destruct (float_follows r); [discriminate|].
      injection H as _ <-. cbn [List.length] in Hlen. lia.
    - destruct (is_digit d); [|discriminate].
      pose proof (read_digits_length (d :: r) 0) as L.
      destruct (read_digits (d :: r) 0) as [n rest0].
      destruct (float_follows rest0); [discriminate|].
      injection H as _ <-. cbn [List.length snd] in L, Hlen. lia. }
  destruct s as [|c r]; [discriminate|].
  destruct (c =? 45); intros H.
  - apply (Hbody true r); [simpl; lia | exact H].
  - apply (Hbody false (c :: r)); [simpl; lia | exact H].
Qed.

(** With integer amounts the fuel of [json_loads] is enough for every
    text. *)
Lemma int_json_loads_fuel (s : text) (f : nat) :
  (2 * List.length s + 2 <= f)%nat ->
  scan_once (PN := IntNumber) f (skip_ws s)
  = scan_once (2 * List.length s + 2) (skip_ws s).
Proof. apply json_loads_fuel. exact int_scan_shrinks. Qed.

(** ** The results on concrete runs

    Integer amounts, ASCII category names, the date 2024-05-17. *)

Lemma save_then_load_witness :
  exists s1 s2 : state,
    log_all ascii_capitalize
      [(mkDate 2024 5 17, str "energy", Int 40);
       (mkDate 2024 5 17, str "gas", Int 5);
       (mkDate 2024 5 17, str "energy", Int 70)]
      (mkState empty_data None [] []) = Returns s1
    /\ save_data s1 = Returns s2
    /\ exists s3,
         __init__ (mkState JNull (file s2) [] []) = Returns s3
         /\ data s3 = data s1.
Proof.
  destruct (save_then_load (PN := IntNumber) ascii_capitalize
              intnum_str_head int_scan_str
              [(mkDate 2024 5 17, str "energy", Int 40);
               (mkDate 2024 5 17, str "gas", Int 5);
               (mkDate 2024 5 17, str "energy", Int 70)]
              (mkState empty_data None [] []))
    as (s1 & s2 & Hrun & _ & Hsave & _ & Hload).
  - reflexivity.
  - repeat constructor.
  - reflexivity.
  - exists s1, s2. split; [exact Hrun|]. split; [exact Hsave|].
    apply (Hload (mkState JNull (file s2) [] [])). reflexivity.
Defined.




Lemma log_all_lengths_witness :
  exists s' : state,
    log_all ascii_capitalize
      [(mkDate 2024 5 17, str "energy", Int 40);
       (mkDate 2024 5 17, str "gas", Int 5);
       (mkDate 2024 5 17, str "energy", Int 70)]
      (mkState empty_data None [] []) = Returns s'
    /\ option_map (@List.length json) (records_of (str "energy") (data s'))
       = Some 2%nat.
Proof.
  destruct (log_all_lengths (PN := IntNumber) ascii_capitalize
              [(mkDate 2024 5 17, str "energy", Int 40);
               (mkDate 2024 5 17, str "gas", Int 5);
               (mkDate 2024 5 17, str "energy", Int 70)]
              (mkState empty_data None [] []) eq_refl)
    as (s' & Hrun & Hlen & _).
  exists s'. split; [exact Hrun|].
  apply (Hlen (str "energy")). left; reflexivity.
Defined.



Lemma log_consumption_appends_witness :
  exists s' : state,
    log_consumption ascii_capitalize (mkDate 2024 5 17) (str "water") (Int (-3))
      (mkState empty_data None [] []) = Returns s'
    /\ records_of (str "water") (data s')
       = Some [record_json (mkRecord (PN := IntNumber) (str "2024-05-17") (Int (-3)))].
Proof.
  destruct (log_consumption_appends (PN := IntNumber) ascii_capitalize
              (mkDate 2024 5 17) (str "water") (Int (-3)) (mkState empty_data None [] [])
              [(str "energy", JArr []); (str "water", JArr []); (str "waste", JArr [])]
              [])
    as (s' & Hcall & Hrec & _).
  - unfold valid_date; simpl; lia.
  - reflexivity.
  - reflexivity.
  - exists s'. split; [exact Hcall | exact Hrec].
Defined.

Lemma save_data_failure_witness :
  exists s' : state,
    save_data (mkState empty_data None [] [OpenFails (str "Permission denied"); WriteOk])
    = Returns s'
    /\ data s' = empty_data
    /\ io s' = [WriteOk]
    /\ file s' = None.
Proof.
  destruct (save_data_failure (PN := IntNumber)
              (mkState empty_data None [] [OpenFails (str "Permission denied"); WriteOk])
              (OpenFails (str "Permission denied")) [WriteOk]
              (str "Permission denied") eq_refl eq_refl)
    as (s' & Hsave & Hd & Hio & _ & Hf).
  exists s'. repeat split; [exact Hsave | exact Hd | exact Hio | exact (Hf eq_refl)].
Defined.

Lemma log_consumption_frame_witness :
  exists st',
    log_consumption_in_place (PN := IntNumber) (mkDate 2024 5 17) (str "water")
      (Int 12)
      (allocate [(str "energy", JArr [JNum (PN := IntNumber) (Int 40)]);
                 (str "water", JArr []); (str "waste", JArr [])] [])
    = Appended st'
    /\ view st'
       = JObj [(str "energy", JArr [JNum (PN := IntNumber) (Int 40)]);
               (str "water",
                JArr [record_json (mkRecord (PN := IntNumber) (str "2024-05-17") (Int 12))]);
               (str "waste", JArr [])].
Proof.
  destruct (log_consumption_frame (PN := IntNumber) (mkDate 2024 5 17)
              (str "water") (Int 12)
              (allocate [(str "energy", JArr [JNum (PN := IntNumber) (Int 40)]);
                         (str "water", JArr []); (str "waste", JArr [])] [])
              1%nat)
    as (st' & Hrun & _).
  - apply allocate_view.
  - reflexivity.
  - exists st'. split; [exact Hrun|].
    vm_compute in Hrun. injection Hrun as <-. reflexivity.
Defined.

(** Were a list object shared by two keys, appending under one key would
    change the value under the other: the separation of the keys is what the
    frame property rests on. *)
Remark shared_list_is_not_framed :
  exists st',
    log_consumption_in_place (PN := IntNumber) (mkDate 2024 5 17) (str "energy")
      (Int 1)
      (mkStore (PN := IntNumber)
         [(str "energy", ListAt 0); (str "water", ListAt 0)] [[]])
    = Appended st'
    /\ dict_get (str "water") (dict st') = Some (ListAt 0)
    /\ view_slot (heap st') (ListAt 0) <> JArr [].
Proof.
  eexists; split; [reflexivity|]. split; [reflexivity|]. vm_compute. discriminate.
Qed.



(** The scenario of the specification: no file, two energy records of 40
    and 70, a report, a save, and a new store over the saved file. *)
Example scenario_two_energy_records :
  let s0 := mkState (PN := IntNumber) JNull None [] [] in
  let today := mkDate 2024 5 17 in
  exists s1 s2 s3 s4 s5 s6,
    __init__ s0 = Returns s1
    /\ log_consumption ascii_capitalize today (str "energy") (Int 40) s1 = Returns s2
    /\ log_consumption ascii_capitalize today (str "energy") (Int 70) s2 = Returns s3
    /\ generate_report ascii_capitalize s3 = Returns s4
    /\ In (str "Energy: Total consumption = 110") (stdout s4)
    /\ In (str "Recommendation for energy: Consider using energy-efficient appliances or LED lighting.")
          (stdout s4)
    /\ save_data s4 = Returns s5
    /\ __init__ (mkState JNull (file s5) [] []) = Returns s6
    /\ records_of (str "energy") (data s6)
       = Some [record_json (mkRecord (PN := IntNumber) (str "2024-05-17") (Int 40));
               record_json (mkRecord (PN := IntNumber) (str "2024-05-17") (Int 70))].
Proof.
  do 6 eexists.
  repeat (split; [vm_compute; reflexivity|]).
  split; [vm_compute; tauto|].
  split; [vm_compute; tauto|].
  repeat (split; [vm_compute; reflexivity|]).
  vm_compute; reflexivity.
Qed.

(** The menu loop and the further results on concrete runs: the lines
    typed are decimal integers where an amount is asked for. *)


Lemma save_load_plain_witness :
  exists s1 s2,
    save_data
      (mkState (PN := IntNumber)
         (JObj [(str "gas", JArr [JNum (PN := IntNumber) (Int 5)]);
                (str "note", JStr (str "kept"))])
         None [] []) = Returns s1
    /\ load_data (mkState JNull (file s1) [] []) = Returns s2
    /\ data s2
       = JObj [(str "gas", JArr [JNum (PN := IntNumber) (Int 5)]);
               (str "note", JStr (str "kept"))].
Proof.
  destruct (save_load_plain (PN := IntNumber) ascii_capitalize
              intnum_str_head int_scan_str
              (mkState (PN := IntNumber)
                 (JObj [(str "gas", JArr [JNum (PN := IntNumber) (Int 5)]);
                        (str "note", JStr (str "kept"))])
                 None [] []))
    as (s1 & Hsave & _ & Hload).
  - reflexivity.
  - reflexivity.
  - destruct (Hload (mkState JNull (file s1) [] []) eq_refl) as (s2 & Hl & Hd & _).
    exists s1, s2. split; [exact Hsave|]. split; [exact Hl | exact Hd].
Defined.






Lemma log_all_contents_witness :
  exists s',
    log_all ascii_capitalize
      [(mkDate 2024 5 17, str "energy", Int 40);
       (mkDate 2024 5 18, str "gas", Int 5);
       (mkDate 2024 5 19, str "energy", Int 70)]
      (mkState empty_data None [] []) = Returns s'
    /\ data s'
       = JObj [(str "energy",
                JArr [record_json
                        (mkRecord (PN := IntNumber) (str "2024-05-17") (Int 40));
                      record_json
                        (mkRecord (PN := IntNumber) (str "2024-05-19") (Int 70))]);
               (str "water", JArr []);
               (str "waste", JArr [])].
Proof.
  apply (log_all_contents (PN := IntNumber) ascii_capitalize
           [(mkDate 2024 5 17, str "energy", Int 40);
            (mkDate 2024 5 18, str "gas", Int 5);
            (mkDate 2024 5 19, str "energy", Int 70)]
           (mkState empty_data None [] [])).
  reflexivity.
Defined.

Lemma log_consumption_in_place_simulates_witness :
  match log_consumption_in_place (PN := IntNumber) (mkDate 2024 5 17)
          (str "water") (Int 30)
          (allocate [(str "energy", JArr []); (str "water", JArr []);
                     (str "waste", JArr [])] [])
  with
  | Appended st' =>
      separate st'
      /\ exists s',
           log_consumption ascii_capitalize (mkDate 2024 5 17) (str "water")
             (Int 30) (mkState empty_data None [] []) = Returns s'
           /\ data s' = view st'
  | Unrecognized =>
      exists s',
        log_consumption ascii_capitalize (mkDate 2024 5 17) (str "water")
          (Int 30) (mkState empty_data None [] []) = Returns s'
        /\ data s' = data (mkState (PN := IntNumber) empty_data None [] [])
  | NoAppend =>
      log_consumption ascii_capitalize (mkDate 2024 5 17) (str "water")
        (Int 30) (mkState empty_data None [] [])
      = Raises AttributeError (mkState empty_data None [] [])
  end.
Proof.
  apply (log_consumption_in_place_simulates (PN := IntNumber) ascii_capitalize
           (mkDate 2024 5 17) (str "water") (Int 30)
           (allocate [(str "energy", JArr []); (str "water", JArr []);
                      (str "waste", JArr [])] [])
           (mkState empty_data None [] [])).
  - apply allocate_view.
  - reflexivity.
Defined.
